(** * SMART CVD risk calculator: risk estimation and risk-reduction composition

    Shallow embedding of [SP-cvd_risk_app_final_ready.py].

    Numbers.  Python [int] values (slider and integer [number_input] widgets,
    the catalog tables) are [Z].  Python [float] values are modelled twice.

    - Over the exact real numbers [R], for the whole program (the estimators
      need [exp], [ln] and a power).  The rounding error of the individual
      binary64 operations is outside this model: a statement over [R] is a
      statement about the formulas the program evaluates, computed exactly,
      on finite values below the overflow threshold.  [round(x, 1)] is
      rounding to one decimal place, ties going to the even digit.

    - Over binary64 itself (module [B64], on the primitive floats), for the
      part of the program that uses only [+], [-], [*], [/], [min],
      comparisons and [round]: the composition block and the terms of the
      linear predictor.  That model computes what Python computes, bit for
      bit, and is the one to consult where a last-place difference decides
      (a value that lands on a decimal tie, two formulas that are equal only
      as real numbers). *)

From Stdlib Require Import Reals Lra Lia ZArith List String Bool.
From Stdlib Require Import R_Ifp ROrderedType Permutation.
From Stdlib Require PrimFloat SpecFloat FloatOps.
Import ListNotations.

Set Warnings "-inexact-float".

Local Open Scope string_scope.
Local Open Scope list_scope.
Local Open Scope R_scope.

(** ** Exceptions

    The statements of the modelled code that can raise are [math.log] (a
    [ValueError] outside its domain), [round] applied to the complex number
    that [**] returns for a negative base ([TypeError]), indexing a dict
    ([KeyError]) and a division by a variable ([ZeroDivisionError]). *)

Inductive PyError : Type :=
| ValueError
| TypeError
| KeyError
| ZeroDivisionError.

Inductive Py (A : Type) : Type :=
| Return (a : A)
| Raise (e : PyError).

Arguments Return {A} a.
Arguments Raise {A} e.

Definition bind {A B : Type} (m : Py A) (k : A -> Py B) : Py B :=
  match m with
  | Return a => k a
  | Raise e => Raise e
  end.

Notation "x <- m ;; k" := (bind m (fun x => k))
  (at level 61, m at next level, right associativity).

(** ** Python numerics *)

Module PyNum.

(** [round(x)] to an integer, ties to even. *)
Definition round_half_even (x : R) : Z :=
  let f := Int_part x in
  match Rcompare (x - IZR f) (1 / 2) with
  | Lt => f
  | Gt => (f + 1)%Z
  | Eq => if Z.even f then f else (f + 1)%Z
  end.

(** [round(x, 1)]. *)
Definition round1 (x : R) : R := IZR (round_half_even (x * 10)) / 10.

(** [math.log(x)]: a [ValueError] ("math domain error") unless [0 < x]. *)
Definition math_log (x : R) : Py R :=
  if Rlt_dec 0 x then Return (ln x) else Raise ValueError.

(** [math.exp(x)].  (The [OverflowError] of binary64 for arguments beyond
    about 709.78 has no counterpart over the reals; the linear predictor of
    a profile inside the widget ranges stays below 16.) *)
Definition math_exp (x : R) : R := exp x.

(** [x ** y] on finite floats, for an exponent [0 < y] that is not an
    integer (the only use in the program is [** 0.5]; [0.900 ** t] has a
    positive base).  A finite negative base gives a complex number, which
    the program then hands to [round]: that is where the [TypeError] comes
    from.  (Python's infinities and NaN have no counterpart in [R].) *)
Definition float_pow (x y : R) : Py R :=
  if Rlt_dec 0 x then Return (Rpower x y)
  else if Req_dec_T x 0 then Return 0
  else Raise TypeError.

End PyNum.
Import PyNum.

(** ** Intervention data *)

Record Intervention : Type := {
  name : string;
  arr_lifetime : Z;
  arr_5yr : Z
}.

(** [interventions]: a list of dicts, one per catalog entry. *)
Definition interventions : list Intervention := [
  {| name := "Smoking cessation"; arr_lifetime := 17%Z; arr_5yr := 5%Z |};
  {| name := "Antiplatelet (ASA or clopidogrel)"; arr_lifetime := 6%Z; arr_5yr := 2%Z |};
  {| name := "BP control (ACEi/ARB Â± CCB)"; arr_lifetime := 12%Z; arr_5yr := 4%Z |};
  {| name := "Semaglutide 2.4 mg"; arr_lifetime := 4%Z; arr_5yr := 1%Z |};
  {| name := "Weight loss to ideal BMI"; arr_lifetime := 10%Z; arr_5yr := 3%Z |};
  {| name := "Empagliflozin"; arr_lifetime := 6%Z; arr_5yr := 2%Z |};
  {| name := "Icosapent ethyl (TG â‰¥1.5)"; arr_lifetime := 5%Z; arr_5yr := 2%Z |};
  {| name := "Mediterranean diet"; arr_lifetime := 9%Z; arr_5yr := 3%Z |};
  {| name := "Physical activity"; arr_lifetime := 9%Z; arr_5yr := 3%Z |};
  {| name := "Alcohol moderation"; arr_lifetime := 5%Z; arr_5yr := 2%Z |};
  {| name := "Stress reduction"; arr_lifetime := 3%Z; arr_5yr := 1%Z |}
].

(** [ldl_therapies]: a dict, iterated in insertion order. *)
Definition ldl_therapies : list (string * Z) := [
  ("Atorvastatin 20 mg", 40%Z);
  ("Atorvastatin 80 mg", 50%Z);
  ("Rosuvastatin 10 mg", 40%Z);
  ("Rosuvastatin 20â€“40 mg", 55%Z);
  ("Simvastatin 40 mg", 35%Z);
  ("Ezetimibe", 20%Z);
  ("PCSK9 inhibitor", 60%Z);
  ("Bempedoic acid", 18%Z)
].

(** ** Python containers *)

(** [x in xs] for a list of strings. *)
Definition py_in (x : string) (xs : list string) : bool :=
  existsb (String.eqb x) xs.

(** [d[k]]: a [KeyError] when [k] is not a key of the dict. *)
Fixpoint dict_get (d : list (string * Z)) (k : string) : Py Z :=
  match d with
  | [] => Raise KeyError
  | (k', v) :: d' => if String.eqb k' k then Return v else dict_get d' k
  end.

(** A [for] loop over a list whose body updates one variable and may
    raise. *)
Fixpoint for_each {A S : Type} (body : S -> A -> Py S) (xs : list A) (s : S)
  : Py S :=
  match xs with
  | [] => Return s
  | x :: xs' => s' <- body s x ;; for_each body xs' s'
  end.

(** ** SMART risk score functions

    Over the reals: the formulas, computed exactly.  Two expressions that
    are equal as real numbers ([0.2*(egfr/10)] and [0.02*egfr]) need not be
    equal in binary64; [B64.egfr_term] is the program's term bit for bit. *)

Definition estimate_smart_risk (age : Z) (sex : string) (sbp : Z)
    (total_chol hdl : R) (smoker diabetes : bool) (egfr : Z) (crp : R)
    (vasc_count : Z) : Py R :=
  let sex_val := if String.eqb sex "Male" then 1 else 0 in
  let smoking_val := if smoker then 1 else 0 in
  let diabetes_val := if diabetes then 1 else 0 in
  crp_log <- (if Req_dec_T crp 0 then Return 0 else math_log (crp + 1)) ;;
  let lp := 0.064 * IZR age + 0.34 * sex_val + 0.02 * IZR sbp
            + 0.25 * total_chol - 0.25 * hdl + 0.44 * smoking_val
            + 0.51 * diabetes_val - 0.2 * (IZR egfr / 10) + 0.25 * crp_log
            + 0.4 * IZR vasc_count in
  s <- float_pow 0.900 (math_exp (lp - 5.8)) ;;
  let risk10 := 1 - s in
  Return (round1 (risk10 * 100)).

Definition estimate_5yr_from_10yr (risk10 : R) : Py R :=
  let p := risk10 / 100 in
  s <- float_pow (1 - p) 0.5 ;;
  let risk5 := 1 - s in
  Return (round1 (risk5 * 100)).

(** ** Lipid-lowering therapy

    [checked label] is the state of the checkbox with that label. *)

Definition on_therapy (checked : string -> bool) : list string :=
  filter checked (map fst ldl_therapies).

Definition adjusted_ldl (baseline_ldl : R) (on_therapy : list string) : Py R :=
  l <- for_each (fun l d => p <- dict_get ldl_therapies d ;;
                            Return (l * (1 - IZR p / 100)))
                on_therapy baseline_ldl ;;
  Return (Rmax l 1.0).

Definition additional (checked : string -> bool) (on_therapy : list string)
  : list string :=
  filter (fun d => negb (py_in d on_therapy) && checked (d ++ " (new)")%string)
         (map fst ldl_therapies).

Definition final_ldl (adjusted_ldl : R) (additional : list string) : Py R :=
  l <- for_each (fun l d => p <- dict_get ldl_therapies d ;;
                            Return (l * (1 - (IZR p / 100) * 0.5)))
                additional adjusted_ldl ;;
  Return (Rmax l 1.0).

(** The whole "Lipid-lowering Therapy" section: from the baseline LDL-C and
    the checkbox states to [final_ldl]. *)
Definition therapy_stack (baseline_ldl : R) (checked : string -> bool) : Py R :=
  let on := on_therapy checked in
  a <- adjusted_ldl baseline_ldl on ;;
  final_ldl a (additional checked on).

(** ** Calculations *)

Definition baseline_risk_of (horizon : string) (risk10 risk5 : R) : R :=
  if String.eqb horizon "5yr" then risk5
  else if String.eqb horizon "10yr" then risk10
  else risk10.

(** The ARR a catalog entry contributes at a horizon. *)
Definition iv_arr (horizon : string) (iv : Intervention) : Z :=
  if String.eqb horizon "5yr" then arr_5yr iv else arr_lifetime iv.

(** [for iv in interventions: if iv["name"] in selected_iv: ...], over any
    catalog. *)
Fixpoint apply_interventions (horizon : string) (selected_iv : list string)
    (catalog : list Intervention) (remaining : R) : R :=
  match catalog with
  | [] => remaining
  | iv :: catalog' =>
      apply_interventions horizon selected_iv catalog'
        (if py_in (name iv) selected_iv
         then remaining * (1 - IZR (iv_arr horizon iv) / 100)
         else remaining)
  end.

Definition ldl_drop (baseline_ldl final_ldl : R) : R := baseline_ldl - final_ldl.

Definition ldl_rrr (baseline_ldl final_ldl : R) : R :=
  Rmin (22 * ldl_drop baseline_ldl final_ldl) 35.

Definition bp_rrr (sbp_current sbp_target : Z) : R :=
  Rmin (15 * (IZR (sbp_current - sbp_target) / 10)) 20.

(** [remaining] after the three steps. *)
Definition remaining (baseline_risk : R) (horizon : string)
    (selected_iv : list string) (baseline_ldl final_ldl : R)
    (sbp_current sbp_target : Z) : R :=
  let remaining := baseline_risk / 100 in
  let remaining := apply_interventions horizon selected_iv interventions remaining in
  let remaining := remaining * (1 - ldl_rrr baseline_ldl final_ldl / 100) in
  let remaining := remaining * (1 - bp_rrr sbp_current sbp_target / 100) in
  remaining.

Record RiskResult : Type := {
  baseline_risk : R;
  final_risk : R;
  arr : R;
  rrr : R
}.

(** Lines "Apply non-lipid RRR multiplicatively" to "Final risks and
    reductions", as a function of the variables they read, in exact
    arithmetic.  Where the exact value of [remaining * 100] is a decimal tie
    (9.25), binary64 lands beside it and the script rounds the other way:
    [B64.compose] below is the same block bit for bit. *)
Definition compose (baseline_risk : R) (horizon : string)
    (selected_iv : list string) (baseline_ldl final_ldl : R)
    (sbp_current sbp_target : Z) : RiskResult :=
  let remaining := remaining baseline_risk horizon selected_iv
                     baseline_ldl final_ldl sbp_current sbp_target in
  let final_risk := round1 (remaining * 100) in
  let arr := round1 (baseline_risk - final_risk) in
  let rrr := if Req_dec_T baseline_risk 0 then 0
             else round1 (arr / baseline_risk * 100) in
  {| baseline_risk := baseline_risk; final_risk := final_risk;
     arr := arr; rrr := rrr |}.

(** The "Calculations" section in the clinician view, from the widget
    values. *)
Definition calculations (horizon : string) (age : Z) (sex : string)
    (smoker diabetes : bool) (egfr : Z) (total_chol hdl crp : R)
    (vasc_count sbp_current sbp_target : Z) (baseline_ldl : R)
    (checked : string -> bool) (selected_iv : list string) : Py RiskResult :=
  final_ldl <- therapy_stack baseline_ldl checked ;;
  risk10 <- estimate_smart_risk age sex sbp_current total_chol hdl smoker
              diabetes egfr crp vasc_count ;;
  risk5 <- estimate_5yr_from_10yr risk10 ;;
  let baseline_risk := baseline_risk_of horizon risk10 risk5 in
  Return (compose baseline_risk horizon selected_iv baseline_ldl final_ldl
            sbp_current sbp_target).

(** ** The composition block in binary64

    The same lines as [compose] above, computed as Python computes them. *)

(** The integers from [lo] to [hi]. *)
Definition Z_range (lo hi : Z) : list Z :=
  map (fun i => (lo + Z.of_nat i)%Z) (seq 0 (Z.to_nat (hi - lo + 1))).

Module B64.

Import PrimFloat SpecFloat FloatOps.
Local Open Scope float_scope.

(** A Python [int] where a float is needed: the nearest binary64 value
    (the integer itself below 2^53). *)
Definition of_int (z : Z) : float :=
  SF2Prim (binary_normalize prec emax z 0 false).

(** [round(x, 1)]: the decimal [k/10] nearest to the exact value of [x],
    the even [k] at a tie, then the binary64 value nearest to [k/10].
    Infinities, NaN, zeros and integers round to themselves. *)
Definition round1 (x : float) : float :=
  match Prim2SF x with
  | S754_finite s m e =>
      if (0 <=? e)%Z then x
      else
        let n := (10 * Zpos m)%Z in
        let d := (2 ^ (- e))%Z in
        let k0 := (n / d)%Z in
        let r := (n mod d)%Z in
        let k := match (2 * r ?= d)%Z with
                 | Lt => k0
                 | Gt => (k0 + 1)%Z
                 | Eq => if Z.even k0 then k0 else (k0 + 1)%Z
                 end in
        match k with
        | Zpos p =>
            SF2Prim (SFdiv prec emax (S754_finite s p 0)
                       (S754_finite false 10 0))
        | _ => if s then neg_zero else zero
        end
  | _ => x
  end.

(** [min(a, b)]: Python keeps [a] unless [b < a]. *)
Definition py_min (a b : float) : float := if b <? a then b else a.

(** The truth value of a float: false for [0.0] and [-0.0] only. *)
Definition truthy (x : float) : bool := negb (x =? 0).

(** [x / y] with a variable divisor: [ZeroDivisionError] at [0.0] and
    [-0.0].  (Divisions by the literals 100 and 10 are written [/].) *)
Definition py_div (x y : float) : Py float :=
  if y =? 0 then Raise ZeroDivisionError else Return (x / y).

Fixpoint apply_interventions (horizon : string) (selected_iv : list string)
    (catalog : list Intervention) (remaining : float) : float :=
  match catalog with
  | [] => remaining
  | iv :: catalog' =>
      apply_interventions horizon selected_iv catalog'
        (if py_in (name iv) selected_iv
         then remaining * (1 - of_int (iv_arr horizon iv) / 100)
         else remaining)
  end.

Definition ldl_drop (baseline_ldl final_ldl : float) : float :=
  baseline_ldl - final_ldl.

Definition ldl_rrr (baseline_ldl final_ldl : float) : float :=
  py_min (22 * ldl_drop baseline_ldl final_ldl) 35.

(** The SBP values are ints in the script; an int below 2^53 and its float
    give the same difference and the same quotient by 10. *)
Definition bp_rrr (sbp_current sbp_target : float) : float :=
  py_min (15 * ((sbp_current - sbp_target) / 10)) 20.

Definition remaining (baseline_risk : float) (horizon : string)
    (selected_iv : list string) (baseline_ldl final_ldl : float)
    (sbp_current sbp_target : float) : float :=
  let remaining := baseline_risk / 100 in
  let remaining := apply_interventions horizon selected_iv interventions remaining in
  let remaining := remaining * (1 - ldl_rrr baseline_ldl final_ldl / 100) in
  let remaining := remaining * (1 - bp_rrr sbp_current sbp_target / 100) in
  remaining.

Record RiskResult : Type := {
  baseline_risk : float;
  final_risk : float;
  arr : float;
  rrr : float
}.

(** [round(arr/baseline_risk*100, 1) if baseline_risk else 0]. *)
Definition rrr_of (arr baseline_risk : float) : Py float :=
  if truthy baseline_risk
  then q <- py_div arr baseline_risk ;; Return (round1 (q * 100))
  else Return 0.

(** The same expression without its [if ... else 0]. *)
Definition rrr_unguarded (arr baseline_risk : float) : Py float :=
  q <- py_div arr baseline_risk ;; Return (round1 (q * 100)).

Definition compose (baseline_risk : float) (horizon : string)
    (selected_iv : list string) (baseline_ldl final_ldl : float)
    (sbp_current sbp_target : float) : Py RiskResult :=
  let remaining := remaining baseline_risk horizon selected_iv
                     baseline_ldl final_ldl sbp_current sbp_target in
  let final_risk := round1 (remaining * 100) in
  let arr := round1 (baseline_risk - final_risk) in
  rrr <- rrr_of arr baseline_risk ;;
  Return {| baseline_risk := baseline_risk; final_risk := final_risk;
            arr := arr; rrr := rrr |}.




End B64.

(** ** The formulas of the specification

    Second definitions, written from the words of the specification, against
    which the code above is compared. *)

(** A value with one decimal place: what [round(_, 1)] returns. *)
Definition one_decimal (x : R) : Prop := exists k : Z, x = IZR k / 10.

(** "ln term evaluated as 0 when crp is zero". *)
Definition spec_ln_term (crp : R) : R :=
  if Req_dec_T crp 0 then 0 else ln (crp + 1).

(** "lp = 0.064·age + 0.34·sexMale + 0.02·sbp + 0.25·totalChol − 0.25·hdl
    + 0.44·smoker + 0.51·diabetes − 0.02·eGFR + 0.25·ln(crp+1)
    + 0.4·vascularBedCount". *)
Definition spec_lp (age sexMale sbp totalChol hdl smoker diabetes eGFR crp
    vascularBedCount : R) : R :=
  0.064 * age + 0.34 * sexMale + 0.02 * sbp + 0.25 * totalChol - 0.25 * hdl
  + 0.44 * smoker + 0.51 * diabetes - 0.02 * eGFR + 0.25 * spec_ln_term crp
  + 0.4 * vascularBedCount.

(** "risk10 = (1 − 0.900^(e^(lp − 5.8))) · 100, rounded to one decimal
    place". *)
Definition spec_risk10 (lp : R) : R :=
  round1 ((1 - Rpower 0.900 (exp (lp - 5.8))) * 100).

(** The ranges the input widgets of the clinician view enforce. *)
Definition valid_profile (age : Z) (sex : string) (sbp : Z)
    (total_chol hdl : R) (egfr : Z) (crp : R) (vasc_count : Z) : Prop :=
  (30 <= age <= 90)%Z
  /\ (sex = "Male" \/ sex = "Female")
  /\ (80 <= sbp <= 220)%Z
  /\ 2.0 <= total_chol <= 10.0
  /\ 0.5 <= hdl <= 3.0
  /\ (15 <= egfr <= 120)%Z
  /\ 0.1 <= crp <= 20.0
  /\ (0 <= vasc_count <= 3)%Z.

(** The 0/1 value of a yes/no covariate. *)
Definition indicator (b : bool) : R := if b then 1 else 0.

(** "p = risk10/100; risk5 = (1 − (1−p)^0.5) · 100, rounded to one decimal
    place". *)
Definition spec_risk5 (risk10 : R) : R :=
  round1 ((1 - sqrt (1 - risk10 / 100)) * 100).

(** "for each entry in selectedInterventions, look up its arr_5yr if horizon
    is 5-year, else its arr_lifetime.  Multiply r ← r·(1 − arr/100)":
    the loop runs over the selection and looks each name up. *)
Definition spec_lookup (catalog : list Intervention) (n : string)
  : option Intervention :=
  find (fun iv => String.eqb (name iv) n) catalog.

Fixpoint spec_apply_selected (horizon : string) (catalog : list Intervention)
    (selectedInterventions : list string) (r : R) : option R :=
  match selectedInterventions with
  | [] => Some r
  | n :: rest =>
      match spec_lookup catalog n with
      | Some iv =>
          let arr := if String.eqb horizon "5yr" then arr_5yr iv
                     else arr_lifetime iv in
          spec_apply_selected horizon catalog rest (r * (1 - IZR arr / 100))
      | None => None
      end
  end.

(** "start at baselineLdl; for each already-active therapy multiply
    ldl ← ldl·(1 − potency/100); clamp the result to a floor of 1.0 mmol/L;
    then for each newly added therapy multiply ldl ← ldl·(1 − potency/100·0.5);
    clamp again to the 1.0 mmol/L floor", over the potencies of the two
    sets. *)
Definition spec_final_ldl (baselineLdl : R) (active new : list Z) : R :=
  let ldl := fold_left (fun ldl potency => ldl * (1 - IZR potency / 100))
                       active baselineLdl in
  let ldl := Rmax ldl 1.0 in
  let ldl := fold_left (fun ldl potency => ldl * (1 - IZR potency / 100 * 0.5))
                       new ldl in
  Rmax ldl 1.0.

(** The catalog entries behind the two checkbox columns. *)
Definition active_entries (checked : string -> bool) : list (string * Z) :=
  filter (fun e => checked (fst e)) ldl_therapies.

Definition new_entries (checked : string -> bool) : list (string * Z) :=
  filter (fun e => negb (py_in (fst e) (on_therapy checked))
                   && checked (fst e ++ " (new)")%string)
         ldl_therapies.

(** ** Input validation warnings

    Whether the script shows the warning. *)

(** [if sbp_target >= sbp_current: st.warning("Target SBP should be lower
    than current SBP.")]. *)
Definition sbp_warning (sbp_current sbp_target : Z) : bool :=
  (sbp_target >=? sbp_current)%Z.

(** [if final_ldl < 1.0: st.warning("Final LDL-C <1.0 mmol/L is theoretical
    minimum; benefit capped.")]. *)
Definition ldl_floor_warning (final_ldl : R) : bool :=
  if Rlt_dec final_ldl 1.0 then true else false.

(** ** The script and its variables

    The script binds its variables in one of two branches and reads them in
    the "Calculations" section.  A variable is a slot that is empty until an
    assignment fills it; reading an empty slot is Python's [NameError]. *)

Inductive ScriptError : Type :=
| NameError (var : string)
| Uncaught (e : PyError).

Inductive Script (A : Type) : Type :=
| Done (a : A)
| Crash (e : ScriptError).

Arguments Done {A} a.
Arguments Crash {A} e.

Definition and_then {A B : Type} (m : Script A) (k : A -> Script B)
  : Script B :=
  match m with
  | Done a => k a
  | Crash e => Crash e
  end.

Notation "x <~ m ;; k" := (and_then m (fun x => k))
  (at level 61, m at next level, right associativity).

Definition run_py {A : Type} (m : Py A) : Script A :=
  match m with
  | Return a => Done a
  | Raise e => Crash (Uncaught e)
  end.

Definition read {A : Type} (var : string) (slot : option A) : Script A :=
  match slot with
  | Some a => Done a
  | None => Crash (NameError var)
  end.

Record Namespace : Type := {
  ns_age : option Z;
  ns_sex : option string;
  ns_smoker : option bool;
  ns_diabetes : option bool;
  ns_egfr : option Z;
  ns_total_chol : option R;
  ns_hdl : option R;
  ns_crp : option R;
  ns_vasc_count : option Z;
  ns_sbp_current : option Z;
  ns_sbp_target : option Z;
  ns_baseline_ldl : option R;
  ns_on_therapy : option (list string);
  ns_additional : option (list string);
  ns_final_ldl : option R;
  ns_selected_iv : option (list string)
}.

(** The [if not patient_mode:] branch, from the widget values. *)
Definition clinician_inputs (age : Z) (sex : string) (smoker diabetes : bool)
    (egfr : Z) (total_chol hdl crp : R)
    (vasc_count sbp_current sbp_target : Z) (baseline_ldl : R)
    (checked : string -> bool) (selected_iv : list string)
  : Script Namespace :=
  let on := on_therapy checked in
  adjusted <~ run_py (adjusted_ldl baseline_ldl on) ;;
  let add := additional checked on in
  final <~ run_py (final_ldl adjusted add) ;;
  Done {| ns_age := Some age; ns_sex := Some sex; ns_smoker := Some smoker;
          ns_diabetes := Some diabetes; ns_egfr := Some egfr;
          ns_total_chol := Some total_chol; ns_hdl := Some hdl;
          ns_crp := Some crp; ns_vasc_count := Some vasc_count;
          ns_sbp_current := Some sbp_current;
          ns_sbp_target := Some sbp_target;
          ns_baseline_ldl := Some baseline_ldl; ns_on_therapy := Some on;
          ns_additional := Some add; ns_final_ldl := Some final;
          ns_selected_iv := Some selected_iv |}.

(** The [else:] branch (patient-friendly view): six widgets and fixed
    values for the rest; [sex] and [additional] are not assigned. *)
Definition patient_inputs (age sbp_current sbp_target : Z)
    (total_chol baseline_ldl final_ldl : R) : Script Namespace :=
  Done {| ns_age := Some age; ns_sex := None; ns_smoker := Some false;
          ns_diabetes := Some false; ns_egfr := Some 80%Z;
          ns_total_chol := Some total_chol; ns_hdl := Some 1.0;
          ns_crp := Some 2.0; ns_vasc_count := Some 1%Z;
          ns_sbp_current := Some sbp_current;
          ns_sbp_target := Some sbp_target;
          ns_baseline_ldl := Some baseline_ldl; ns_on_therapy := Some [];
          ns_additional := None; ns_final_ldl := Some final_ldl;
          ns_selected_iv := Some [] |}.

(** The "Calculations" section: the variables are read in the order in
    which Python evaluates them. *)
Definition run_calculations (horizon : string) (ns : Namespace)
  : Script RiskResult :=
  age <~ read "age" (ns_age ns) ;;
  sex <~ read "sex" (ns_sex ns) ;;
  sbp_current <~ read "sbp_current" (ns_sbp_current ns) ;;
  total_chol <~ read "total_chol" (ns_total_chol ns) ;;
  hdl <~ read "hdl" (ns_hdl ns) ;;
  smoker <~ read "smoker" (ns_smoker ns) ;;
  diabetes <~ read "diabetes" (ns_diabetes ns) ;;
  egfr <~ read "egfr" (ns_egfr ns) ;;
  crp <~ read "crp" (ns_crp ns) ;;
  vasc_count <~ read "vasc_count" (ns_vasc_count ns) ;;
  risk10 <~ run_py (estimate_smart_risk age sex sbp_current total_chol hdl
                      smoker diabetes egfr crp vasc_count) ;;
  risk5 <~ run_py (estimate_5yr_from_10yr risk10) ;;
  let baseline_risk := baseline_risk_of horizon risk10 risk5 in
  selected_iv <~ read "selected_iv" (ns_selected_iv ns) ;;
  baseline_ldl <~ read "baseline_ldl" (ns_baseline_ldl ns) ;;
  final_ldl <~ read "final_ldl" (ns_final_ldl ns) ;;
  sbp_target <~ read "sbp_target" (ns_sbp_target ns) ;;
  Done (compose baseline_risk horizon selected_iv baseline_ldl final_ldl
          sbp_current sbp_target).

(** One run of the script up to the results, in either view. *)
Definition script (horizon : string) (inputs : Script Namespace)
  : Script RiskResult :=
  ns <~ inputs ;; run_calculations horizon ns.



(** * Properties *)

(** ** The exception monad *)

Lemma bind_ext {A B : Type} (m : Py A) (k1 k2 : A -> Py B) :
  (forall a, k1 a = k2 a) -> bind m k1 = bind m k2.
Proof. intros Hk. destruct m as [a | e]; simpl; [apply Hk | reflexivity]. Qed.

Lemma bind_Return {A B : Type} (a : A) (k : A -> Py B) :
  bind (Return a) k = k a.
Proof. reflexivity. Qed.

(** ** Rounding *)

Section Rounding.

Lemma Int_part_bounds (x : R) : IZR (Int_part x) <= x < IZR (Int_part x) + 1.
Proof. destruct (base_Int_part x) as [Hlo Hhi]. lra. Qed.

Lemma round_half_even_near (x : R) :
  x - 1 / 2 <= IZR (round_half_even x) <= x + 1 / 2.
Proof.
  unfold round_half_even.
  pose proof (Int_part_bounds x) as Hf.
  destruct (Rcompare_spec (x - IZR (Int_part x)) (1 / 2)) as [He | Hl | Hg].
  - destruct (Z.even (Int_part x)); rewrite ?plus_IZR; lra.
  - lra.
  - rewrite plus_IZR. lra.
Qed.

Lemma round_half_even_unique (x : R) (k : Z) :
  IZR k - 1 / 2 < x < IZR k + 1 / 2 -> round_half_even x = k.
Proof.
  intros Hk. pose proof (round_half_even_near x) as Hn.
  assert (Hlt : (k - 1 < round_half_even x < k + 1)%Z).
  { split; apply lt_IZR; rewrite ?minus_IZR, ?plus_IZR; lra. }
  lia.
Qed.

Lemma round_half_even_IZR (k : Z) : round_half_even (IZR k) = k.
Proof. apply round_half_even_unique. lra. Qed.

Lemma round_half_even_mono (x y : R) :
  x <= y -> (round_half_even x <= round_half_even y)%Z.
Proof.
  intros [Hlt | Heq]; [| subst; lia].
  pose proof (round_half_even_near x) as Hx.
  pose proof (round_half_even_near y) as Hy.
  assert (H : (round_half_even x < round_half_even y + 1)%Z).
  { apply lt_IZR. rewrite plus_IZR. lra. }
  lia.
Qed.

Lemma round1_one_decimal (x : R) : one_decimal (round1 x).
Proof. now exists (round_half_even (x * 10)). Qed.

Lemma round1_fixes (k : Z) : round1 (IZR k / 10) = IZR k / 10.
Proof.
  unfold round1. replace (IZR k / 10 * 10) with (IZR k) by lra.
  now rewrite round_half_even_IZR.
Qed.

Lemma round1_idem (x : R) : round1 (round1 x) = round1 x.
Proof. unfold round1 at 2 3. apply round1_fixes. Qed.

Lemma round1_0 : round1 0 = 0.
Proof. replace 0 with (IZR 0 / 10) by lra. apply round1_fixes. Qed.

Lemma round1_mono (x y : R) : x <= y -> round1 x <= round1 y.
Proof.
  intros Hxy. unfold round1.
  assert (H : (round_half_even (x * 10) <= round_half_even (y * 10))%Z)
    by (apply round_half_even_mono; lra).
  apply IZR_le in H. lra.
Qed.

Lemma round1_near (x : R) : x - 1 / 20 <= round1 x <= x + 1 / 20.
Proof. unfold round1. pose proof (round_half_even_near (x * 10)). lra. Qed.

(** [round1 x] is [k/10] as soon as [x] is strictly closer to [k/10] than
    to its neighbours. *)
Lemma round1_eq (x : R) (k : Z) :
  IZR k / 10 - 1 / 20 < x < IZR k / 10 + 1 / 20 -> round1 x = IZR k / 10.
Proof.
  intros Hk. unfold round1. rewrite (round_half_even_unique (x * 10) k); lra.
Qed.

End Rounding.

(** ** The composition block *)

Section Composition.

Lemma apply_interventions_nil (horizon : string)
    (catalog : list Intervention) (r : R) :
  apply_interventions horizon [] catalog r = r.
Proof.
  revert r. induction catalog as [| iv catalog IH]; intros r; simpl.
  - reflexivity.
  - apply IH.
Qed.

(** The three steps are three multiplications, in this order. *)
Lemma remaining_unfold (b : R) (h : string) (sel : list string)
    (bl fl : R) (sc st : Z) :
  remaining b h sel bl fl sc st
  = apply_interventions h sel interventions (b / 100)
    * (1 - ldl_rrr bl fl / 100) * (1 - bp_rrr sc st / 100).
Proof. reflexivity. Qed.

Lemma ldl_rrr_same (l : R) : ldl_rrr l l = 0.
Proof.
  unfold ldl_rrr, ldl_drop. replace (22 * (l - l)) with 0 by lra.
  apply Rmin_left. lra.
Qed.

Lemma bp_rrr_same (s : Z) : bp_rrr s s = 0.
Proof.
  unfold bp_rrr. rewrite Z.sub_diag.
  replace (15 * (0 / 10)) with 0 by lra.
  apply Rmin_left. lra.
Qed.

Lemma bp_rrr_cap (sc st : Z) : (14 <= sc - st)%Z -> bp_rrr sc st = 20.
Proof.
  intros H14. apply IZR_le in H14. unfold bp_rrr. apply Rmin_right. lra.
Qed.

Lemma remaining_identity (b : R) (h : string) (l : R) (s : Z) :
  remaining b h [] l l s s * 100 = b.
Proof.
  rewrite remaining_unfold, apply_interventions_nil, ldl_rrr_same, bp_rrr_same.
  lra.
Qed.

End Composition.



(** C5, as stated, fails: the final risk is rounded to one decimal place, so
    a baseline risk of 12.34 comes back as 12.3 although nothing is selected
    and both plans are neutral. *)
Lemma compose_identity_needs_one_decimal :
  final_risk (compose 12.34 "10yr" [] 3.5 3.5 120 120) = 12.3
  /\ final_risk (compose 12.34 "10yr" [] 3.5 3.5 120 120)
     <> baseline_risk (compose 12.34 "10yr" [] 3.5 3.5 120 120).
Proof.
  assert (H : final_risk (compose 12.34 "10yr" [] 3.5 3.5 120 120) = 12.3).
  { unfold compose; cbn [final_risk]. rewrite remaining_identity.
    replace 12.3 with (IZR 123 / 10) by lra. apply round1_eq. lra. }
  split; [exact H |]. rewrite H. cbn [compose baseline_risk]. lra.
Qed.

(** C5 (amended).  For every baseline risk with one decimal place (every
    value the two estimators return), composing with an empty selection,
    [final_ldl = baseline_ldl] and [sbp_target = sbp_current] returns
    [final_risk = baseline_risk], [arr = 0] and [rrr = 0]. *)
Theorem compose_identity (b : R) (h : string) (l : R) (s : Z) :
  one_decimal b ->
  compose b h [] l l s s
  = {| baseline_risk := b; final_risk := b; arr := 0; rrr := 0 |}.
Proof.
  intros [k Hk]. unfold compose. rewrite remaining_identity.
  assert (Hb : round1 b = b) by (rewrite Hk; apply round1_fixes).
  rewrite Hb. replace (b - b) with 0 by lra. rewrite round1_0.
  destruct (Req_dec_T b 0) as [Hz | Hnz]; [reflexivity |].
  replace (0 / b * 100) with 0 by (field; exact Hnz).
  now rewrite round1_0.
Qed.

Lemma compose_identity_witness :
  compose 20 "10yr" [] 3.5 3.5 120 120
  = {| baseline_risk := 20; final_risk := 20; arr := 0; rrr := 0 |}.
Proof. apply (compose_identity 20 "10yr" 3.5 120). exists 200%Z. lra. Defined.

(** C9, as stated, fails for negative baseline risks: the guard is the
    truth value of [baseline_risk], which is false only at zero.  From a
    baseline of -10 with the default SBP plan (145 to 120) the program
    computes [rrr = 20], not 0. *)
Lemma rrr_of_negative_baseline_not_zero :
  -10 <= 0 /\ rrr (compose (-10) "10yr" [] 3.5 3.5 145 120) = 20.
Proof.
  split; [lra |].
  unfold compose; cbn [rrr].
  rewrite remaining_unfold, apply_interventions_nil, ldl_rrr_same.
  rewrite (bp_rrr_cap 145 120) by lia.
  replace (-10 / 100 * (1 - 0 / 100) * (1 - 20 / 100) * 100)
    with (IZR (-80) / 10) by lra.
  rewrite round1_fixes.
  replace (-10 - IZR (-80) / 10) with (IZR (-20) / 10) by lra.
  rewrite round1_fixes.
  destruct (Req_dec_T (-10) 0) as [Hz | _]; [lra |].
  replace (IZR (-20) / 10 / -10 * 100) with (IZR 200 / 10) by lra.
  rewrite round1_fixes. lra.
Qed.

(** ** The interventions loop *)

Section InterventionsLoop.

Variable horizon : string.

Lemma py_in_In (x : string) (xs : list string) : py_in x xs = true <-> In x xs.
Proof.
  unfold py_in. rewrite existsb_exists. split.
  - intros (y & Hy & Heq). apply String.eqb_eq in Heq. now subst.
  - intros Hx. exists x. split; [exact Hx | apply String.eqb_refl].
Qed.

Lemma py_in_not_In (x : string) (xs : list string) :
  py_in x xs = false <-> ~ In x xs.
Proof.
  rewrite <- py_in_In. destruct (py_in x xs); split; intros H; congruence.
Qed.

(** The loop only asks which catalog names are members of the selection. *)
Lemma apply_interventions_ext (sel1 sel2 : list string)
    (catalog : list Intervention) (r : R) :
  (forall iv, In iv catalog -> py_in (name iv) sel1 = py_in (name iv) sel2) ->
  apply_interventions horizon sel1 catalog r
  = apply_interventions horizon sel2 catalog r.
Proof.
  revert r. induction catalog as [| iv catalog IH]; intros r Hsame; simpl.
  - reflexivity.
  - rewrite (Hsame iv) by (now left). apply IH.
    intros iv' Hin. apply Hsame. now right.
Qed.

Lemma py_in_middle_other (x n : string) (sel1 sel2 : list string) :
  x <> n -> py_in x (sel1 ++ n :: sel2) = py_in x (sel1 ++ sel2).
Proof.
  intros Hne. unfold py_in. rewrite !existsb_app. simpl.
  apply String.eqb_neq in Hne. now rewrite Hne.
Qed.

Lemma apply_interventions_unknown (sel1 sel2 : list string) (n : string)
    (catalog : list Intervention) (r : R) :
  ~ In n (map name catalog) ->
  apply_interventions horizon (sel1 ++ n :: sel2) catalog r
  = apply_interventions horizon (sel1 ++ sel2) catalog r.
Proof.
  intros Hunknown. apply apply_interventions_ext.
  intros iv Hin. apply py_in_middle_other.
  intros Heq. apply Hunknown. rewrite <- Heq. now apply in_map.
Qed.

(** The loop is linear in the remaining risk. *)
Lemma apply_interventions_scale (sel : list string)
    (catalog : list Intervention) (r c : R) :
  apply_interventions horizon sel catalog (r * c)
  = apply_interventions horizon sel catalog r * c.
Proof.
  revert r. induction catalog as [| iv catalog IH]; intros r; simpl.
  - reflexivity.
  - destruct (py_in (name iv) sel); [| apply IH].
    rewrite <- IH. f_equal. ring.
Qed.

Lemma spec_lookup_known (catalog : list Intervention) (n : string) :
  In n (map name catalog) -> exists iv, spec_lookup catalog n = Some iv.
Proof.
  intros Hin. apply in_map_iff in Hin as (iv & Hname & Hiv).
  unfold spec_lookup.
  destruct (find (fun iv0 => String.eqb (name iv0) n) catalog) as [iv' |] eqn:Hf.
  - now exists iv'.
  - apply (find_none _ _ Hf) in Hiv. simpl in Hiv.
    rewrite Hname, String.eqb_refl in Hiv. discriminate.
Qed.

(** Selecting one more catalog entry multiplies the result by that entry's
    factor, once: the catalog holds each name once. *)
Lemma apply_interventions_select (sel : list string) (n : string)
    (catalog : list Intervention) (iv : Intervention) (r : R) :
  NoDup (map name catalog) ->
  spec_lookup catalog n = Some iv ->
  ~ In n sel ->
  apply_interventions horizon (n :: sel) catalog r
  = apply_interventions horizon sel catalog r
    * (1 - IZR (iv_arr horizon iv) / 100).
Proof.
  revert r. induction catalog as [| iv0 catalog IH]; intros r Hnd Hlook Hnew.
  - discriminate.
  - simpl in Hnd. inversion Hnd as [| ? ? Hfresh Hnd']; subst.
    unfold spec_lookup in Hlook. simpl in Hlook. simpl.
    destruct (String.eqb (name iv0) n) eqn:Hn.
    + injection Hlook as <-. apply String.eqb_eq in Hn. subst n.
      apply py_in_not_In in Hnew. rewrite Hnew. simpl.
      rewrite (apply_interventions_unknown [] sel (name iv0) catalog) by exact Hfresh.
      simpl. apply apply_interventions_scale.
    + simpl. apply IH; assumption.
Qed.

Lemma spec_apply_selected_refines (catalog : list Intervention)
    (sel : list string) (r : R) :
  NoDup (map name catalog) ->
  NoDup sel ->
  incl sel (map name catalog) ->
  spec_apply_selected horizon catalog sel r
  = Some (apply_interventions horizon sel catalog r).
Proof.
  intros Hcat. revert r.
  induction sel as [| n sel IH]; intros r Hnd Hincl; simpl.
  - now rewrite apply_interventions_nil.
  - inversion Hnd as [| ? ? Hfresh Hnd']; subst.
    destruct (spec_lookup_known catalog n) as [iv Hiv];
      [apply Hincl; now left |].
    rewrite Hiv.
    rewrite IH; [| exact Hnd' | intros x Hx; apply Hincl; now right].
    rewrite (apply_interventions_select sel n catalog iv r Hcat Hiv Hfresh).
    rewrite apply_interventions_scale. reflexivity.
Qed.

End InterventionsLoop.

Lemma interventions_names_NoDup : NoDup (map name interventions).
Proof.
  simpl. repeat (constructor; [simpl; intuition discriminate |]). constructor.
Qed.

Lemma compose_unknown (b : R) (h : string) (sel1 sel2 : list string)
    (n : string) (bl fl : R) (sc st : Z) :
  ~ In n (map name interventions) ->
  compose b h (sel1 ++ n :: sel2) bl fl sc st
  = compose b h (sel1 ++ sel2) bl fl sc st.
Proof.
  intros Hunknown. unfold compose, remaining.
  now rewrite (apply_interventions_unknown h sel1 sel2 n interventions _ Hunknown).
Qed.

Lemma Homeopathy_unknown : ~ In "Homeopathy" (map name interventions).
Proof. simpl. intuition discriminate. Qed.

(** C1, as stated, fails: the loop runs over the catalog and asks of each
    entry whether its name is selected, so a selected name that the catalog
    does not hold is never looked at.  With "Homeopathy" selected the block
    returns a result, and it is the result of the empty selection. *)
Lemma unknown_intervention_returns_result :
  ~ In "Homeopathy" (map name interventions)
  /\ compose 20 "10yr" ["Homeopathy"] 3.5 2.0 145 120
     = {| baseline_risk := 20; final_risk := 10.7; arr := 9.3; rrr := 46.5 |}
  /\ compose 20 "10yr" ["Homeopathy"] 3.5 2.0 145 120
     = compose 20 "10yr" [] 3.5 2.0 145 120.
Proof.
  split; [exact Homeopathy_unknown |].
  assert (Hsame : compose 20 "10yr" ["Homeopathy"] 3.5 2.0 145 120
                  = compose 20 "10yr" [] 3.5 2.0 145 120)
    by exact (compose_unknown 20 "10yr" [] [] "Homeopathy" 3.5 2.0 145 120
                Homeopathy_unknown).
  split; [| exact Hsame].
  rewrite Hsame. unfold compose.
  rewrite remaining_unfold, apply_interventions_nil.
  rewrite (bp_rrr_cap 145 120) by lia.
  assert (Hldl : ldl_rrr 3.5 2.0 = 33).
  { unfold ldl_rrr, ldl_drop. rewrite Rmin_left; lra. }
  rewrite Hldl.
  replace (20 / 100 * (1 - 33 / 100) * (1 - 20 / 100) * 100) with 10.72 by lra.
  assert (Hf : round1 10.72 = 10.7).
  { replace 10.7 with (IZR 107 / 10) by lra. apply round1_eq. lra. }
  rewrite Hf.
  assert (Ha : round1 (20 - 10.7) = 9.3).
  { replace (20 - 10.7) with (IZR 93 / 10) by lra. rewrite round1_fixes. lra. }
  rewrite Ha.
  destruct (Req_dec_T 20 0) as [Hz | _]; [lra |].
  assert (Hr : round1 (9.3 / 20 * 100) = 46.5).
  { replace (9.3 / 20 * 100) with (IZR 465 / 10) by lra.
    rewrite round1_fixes. lra. }
  rewrite Hr. reflexivity.
Qed.

(** C1 (amended).  For every selection and every name that is not present in
    the catalog, the selection with that name in it gives the result of the
    selection without it: the name contributes no factor, and neither the
    composition block nor the whole calculation raises because of it. *)
Theorem unknown_intervention_is_ignored (n : string)
    (sel1 sel2 : list string) :
  ~ In n (map name interventions) ->
  (forall b h bl fl sc st,
      compose b h (sel1 ++ n :: sel2) bl fl sc st
      = compose b h (sel1 ++ sel2) bl fl sc st)
  /\ (forall h age sex smoker diabetes egfr total_chol hdl crp vasc_count
             sbp_current sbp_target baseline_ldl checked,
         calculations h age sex smoker diabetes egfr total_chol hdl crp
           vasc_count sbp_current sbp_target baseline_ldl checked
           (sel1 ++ n :: sel2)
         = calculations h age sex smoker diabetes egfr total_chol hdl crp
             vasc_count sbp_current sbp_target baseline_ldl checked
             (sel1 ++ sel2)).
Proof.
  intros Hunknown. split.
  - intros. now apply compose_unknown.
  - intros. unfold calculations.
    apply bind_ext; intros fl. apply bind_ext; intros r10.
    apply bind_ext; intros r5.
    apply (f_equal (@Return RiskResult)). now apply compose_unknown.
Qed.

Lemma unknown_intervention_is_ignored_witness :
  compose 20 "5yr" ["Physical activity"; "Homeopathy"] 3.5 2.0 145 120
  = compose 20 "5yr" ["Physical activity"] 3.5 2.0 145 120.
Proof.
  apply (unknown_intervention_is_ignored "Homeopathy" ["Physical activity"] []).
  simpl. intuition discriminate.
Defined.

(** ** The therapy stack *)

Section TherapyStack.

Lemma dict_get_In (d : list (string * Z)) (k : string) (v : Z) :
  NoDup (map fst d) -> In (k, v) d -> dict_get d k = Return v.
Proof.
  induction d as [| [k' v'] d IH]; intros Hnd Hin; simpl.
  - contradiction.
  - inversion Hnd as [| ? ? Hfresh Hnd']; subst.
    destruct Hin as [Heq | Hin].
    + injection Heq as -> ->. now rewrite String.eqb_refl.
    + destruct (String.eqb k' k) eqn:Hk.
      * apply String.eqb_eq in Hk. subst k'.
        exfalso. apply Hfresh. change k with (fst (k, v)). now apply in_map.
      * now apply IH.
Qed.

Lemma filter_map_fst (q : string -> bool) (d : list (string * Z)) :
  filter q (map fst d) = map fst (filter (fun e => q (fst e)) d).
Proof.
  induction d as [| e d IH]; simpl; [reflexivity |].
  destruct (q (fst e)); simpl; now rewrite IH.
Qed.

(** A loop that looks every name of [es] up in [d] and multiplies by
    [g potency] never raises when the names come from [d] itself. *)
Lemma for_each_potency (d es : list (string * Z)) (g : Z -> R) (l : R) :
  NoDup (map fst d) ->
  incl es d ->
  for_each (fun l k => p <- dict_get d k ;; Return (l * g p)) (map fst es) l
  = Return (fold_left (fun l p => l * g p) (map snd es) l).
Proof.
  intros Hnd. revert l.
  induction es as [| [k v] es IH]; intros l Hincl; simpl.
  - reflexivity.
  - rewrite (dict_get_In d k v Hnd) by (apply Hincl; now left).
    simpl. apply IH. intros e He. apply Hincl. now right.
Qed.

Lemma ldl_therapies_keys_NoDup : NoDup (map fst ldl_therapies).
Proof.
  simpl. repeat (constructor; [simpl; intuition discriminate |]). constructor.
Qed.

Lemma on_therapy_entries (checked : string -> bool) :
  on_therapy checked = map fst (active_entries checked).
Proof. apply filter_map_fst. Qed.

Lemma additional_entries (checked : string -> bool) :
  additional checked (on_therapy checked) = map fst (new_entries checked).
Proof.
  unfold additional, new_entries.
  apply (filter_map_fst
           (fun d => negb (py_in d (on_therapy checked))
                     && checked (d ++ " (new)")%string)).
Qed.

Lemma therapy_stack_spec (baseline_ldl : R) (checked : string -> bool) :
  therapy_stack baseline_ldl checked
  = Return (spec_final_ldl baseline_ldl
              (map snd (active_entries checked))
              (map snd (new_entries checked))).
Proof.
  unfold therapy_stack. rewrite additional_entries, on_therapy_entries.
  unfold adjusted_ldl, final_ldl, spec_final_ldl.
  rewrite (for_each_potency ldl_therapies (active_entries checked)
             (fun p => 1 - IZR p / 100));
    [| exact ldl_therapies_keys_NoDup | apply incl_filter].
  rewrite !bind_Return.
  rewrite (for_each_potency ldl_therapies (new_entries checked)
             (fun p => 1 - IZR p / 100 * 0.5));
    [| exact ldl_therapies_keys_NoDup | apply incl_filter].
  reflexivity.
Qed.

Lemma new_entries_not_active (checked : string -> bool) (e : string * Z) :
  In e (new_entries checked) -> ~ In (fst e) (on_therapy checked).
Proof.
  unfold new_entries. rewrite filter_In. intros [_ Hq].
  apply andb_true_iff in Hq as [Hnot _].
  apply negb_true_iff in Hnot. now apply py_in_not_In.
Qed.


End TherapyStack.

(** C8.  For every baseline LDL-C and every state of the therapy checkboxes
    the derived [final_ldl] is at least 1.0 mmol/L, and it is the two-stage
    value: the active therapies at full potency, the 1.0 floor, the new
    therapies (none of them active) at half potency, the floor again.  The
    dict look-ups never raise. *)
Theorem final_ldl_two_stage_floor (baseline_ldl : R) (checked : string -> bool) :
  exists ldl : R,
    therapy_stack baseline_ldl checked = Return ldl
    /\ 1.0 <= ldl
    /\ ldl = spec_final_ldl baseline_ldl
               (map snd (active_entries checked))
               (map snd (new_entries checked))
    /\ on_therapy checked = map fst (active_entries checked)
    /\ additional checked (on_therapy checked) = map fst (new_entries checked)
    /\ (forall e, In e (new_entries checked) -> ~ In (fst e) (on_therapy checked)).
Proof.
  eexists. split; [apply therapy_stack_spec |].
  split; [unfold spec_final_ldl; apply Rmax_r |].
  split; [reflexivity |].
  split; [apply on_therapy_entries |].
  split; [apply additional_entries | apply new_entries_not_active].
Qed.

Lemma final_ldl_two_stage_floor_witness :
  exists ldl : R,
    therapy_stack 3.5
      (fun label => String.eqb label "Ezetimibe"
                    || String.eqb label "PCSK9 inhibitor (new)")
    = Return ldl
    /\ 1.0 <= ldl.
Proof.
  destruct (final_ldl_two_stage_floor 3.5
              (fun label => String.eqb label "Ezetimibe"
                            || String.eqb label "PCSK9 inhibitor (new)"))
    as (ldl & Hret & Hfloor & _).
  exists ldl. split; [exact Hret | exact Hfloor].
Defined.

(** Ezetimibe active and a PCSK9 inhibitor added to a baseline of 3.5:
    3.5 * 0.8 = 2.8, then 2.8 * (1 - 0.6 * 0.5) = 1.96. *)
Example therapy_stack_ezetimibe_then_pcsk9 :
  therapy_stack 3.5
    (fun label => String.eqb label "Ezetimibe"
                  || String.eqb label "PCSK9 inhibitor (new)")
  = Return 1.96.
Proof.
  rewrite therapy_stack_spec. unfold active_entries, new_entries, on_therapy.
  simpl. unfold spec_final_ldl. simpl.
  rewrite (Rmax_left (3.5 * (1 - 20 / 100)) 1.0) by lra.
  rewrite Rmax_left by lra. f_equal. lra.
Qed.

Section FloorWithoutTherapy.

Variable baseline_ldl : R.
Hypothesis below_floor : baseline_ldl < 1.0.




End FloorWithoutTherapy.




(** ** The risk estimators *)

Section Estimators.

Lemma float_pow_pos (x y : R) : 0 < x -> float_pow x y = Return (Rpower x y).
Proof.
  intros Hx. unfold float_pow. destruct (Rlt_dec 0 x); [reflexivity | contradiction].
Qed.

Lemma float_pow_half (x : R) : 0 <= x -> float_pow x 0.5 = Return (sqrt x).
Proof.
  intros [Hpos | Hzero].
  - rewrite float_pow_pos by exact Hpos.
    replace 0.5 with (/ 2) by lra. now rewrite Rpower_sqrt.
  - subst x. unfold float_pow.
    destruct (Rlt_dec 0 0) as [H | _]; [lra |].
    destruct (Req_dec_T 0 0) as [_ | H]; [| contradiction].
    now rewrite sqrt_0.
Qed.


Lemma spec_ln_term_ln (crp : R) : spec_ln_term crp = ln (crp + 1).
Proof.
  unfold spec_ln_term. destruct (Req_dec_T crp 0) as [-> | _]; [| reflexivity].
  replace (0 + 1) with 1 by lra. now rewrite ln_1.
Qed.

Lemma crp_log_value (crp : R) :
  -1 < crp ->
  (if Req_dec_T crp 0 then Return 0 else math_log (crp + 1))
  = Return (spec_ln_term crp).
Proof.
  intros Hcrp. unfold spec_ln_term, math_log.
  destruct (Req_dec_T crp 0); [reflexivity |].
  destruct (Rlt_dec 0 (crp + 1)); [reflexivity | lra].
Qed.

Lemma estimate_smart_risk_value (age : Z) (sex : string) (sbp : Z)
    (total_chol hdl : R) (smoker diabetes : bool) (egfr : Z) (crp : R)
    (vasc_count : Z) :
  -1 < crp ->
  estimate_smart_risk age sex sbp total_chol hdl smoker diabetes egfr crp
    vasc_count
  = Return (spec_risk10
              (spec_lp (IZR age) (indicator (String.eqb sex "Male")) (IZR sbp)
                 total_chol hdl (indicator smoker) (indicator diabetes)
                 (IZR egfr) crp (IZR vasc_count))).
Proof.
  intros Hcrp. unfold estimate_smart_risk.
  rewrite (crp_log_value crp Hcrp), bind_Return.
  rewrite float_pow_pos by lra. rewrite bind_Return.
  unfold spec_risk10, spec_lp, math_exp, indicator.
  apply (f_equal (@Return R)). apply (f_equal round1).
  apply (f_equal (fun e => (1 - Rpower 0.900 (exp e)) * 100)). lra.
Qed.


Lemma survival_range (t : R) : 0 < Rpower 0.900 (exp t) < 1.
Proof.
  unfold Rpower. split; [apply exp_pos |].
  rewrite <- exp_0. apply exp_increasing.
  assert (Hln : ln 0.900 < 0).
  { rewrite <- ln_1. apply ln_increasing; lra. }
  pose proof (exp_pos t). nra.
Qed.

Lemma spec_risk10_range (lp : R) :
  0 <= spec_risk10 lp <= 100 /\ one_decimal (spec_risk10 lp).
Proof.
  unfold spec_risk10. pose proof (survival_range (lp - 5.8)) as Hs.
  split; [| apply round1_one_decimal]. split.
  - rewrite <- round1_0. apply round1_mono. lra.
  - replace 100 with (IZR 1000 / 10) at 2 by lra.
    rewrite <- round1_fixes. apply round1_mono. lra.
Qed.

Lemma estimate_5yr_value (risk10 : R) :
  risk10 <= 100 -> estimate_5yr_from_10yr risk10 = Return (spec_risk5 risk10).
Proof.
  intros Hr. unfold estimate_5yr_from_10yr.
  rewrite float_pow_half by lra. reflexivity.
Qed.


Lemma sqrt_unit (x : R) :
  0 <= x <= 1 -> 0 <= sqrt x <= 1 /\ sqrt x * sqrt x = x.
Proof.
  intros Hx. pose proof (sqrt_pos x) as Hq.
  pose proof (sqrt_sqrt x (proj1 Hx)) as Hqq.
  split; [| exact Hqq]. split; [exact Hq | nra].
Qed.

Lemma spec_risk5_le (risk10 : R) :
  0 <= risk10 <= 100 -> one_decimal risk10 ->
  0 <= spec_risk5 risk10 <= risk10.
Proof.
  intros Hr [k Hk]. unfold spec_risk5.
  destruct (sqrt_unit (1 - risk10 / 100)) as [Hq Hqq]; [lra |].
  split.
  - rewrite <- round1_0. apply round1_mono. lra.
  - rewrite Hk at 2. rewrite <- (round1_fixes k), <- Hk.
    apply round1_mono. nra.
Qed.

Lemma spec_risk5_lt (risk10 : R) :
  0.1 < risk10 < 100 -> one_decimal risk10 -> spec_risk5 risk10 < risk10.
Proof.
  intros Hr [k Hk]. unfold spec_risk5.
  assert (Hkz : (2 <= k <= 999)%Z).
  { split.
    - assert (H : (1 < k)%Z) by (apply lt_IZR; lra). lia.
    - assert (H : (k < 1000)%Z) by (apply lt_IZR; lra). lia. }
  destruct Hkz as [Hlo Hhi]. apply IZR_le in Hlo, Hhi.
  destruct (sqrt_unit (1 - risk10 / 100)) as [Hq Hqq]; [lra |].
  set (q := sqrt (1 - risk10 / 100)) in *.
  pose proof (round1_near ((1 - q) * 100)) as Hnear.
  assert (Hq_lo : 0.0316 <= q) by nra.
  assert (Hq_hi : q <= 0.999) by nra.
  assert (Hgap : (1 - q) * 100 < risk10 - 1 / 20) by nra.
  lra.
Qed.

End Estimators.

(** ** Bounds on [exp] and [ln] for concrete evaluations *)

Section ExpBounds.

Lemma exp_upper1 (x : R) : x < 1 -> exp x <= / (1 - x).
Proof.
  intros Hx. pose proof (exp_ineq1_le (- x)) as Hlow.
  replace x with (- - x) at 1 by lra. rewrite exp_Ropp.
  apply Rinv_le_contravar; lra.
Qed.

Lemma exp_double_lower (v w L L' : R) :
  w = 2 * v -> 0 <= L -> L <= exp v -> L' <= L * L -> L' <= exp w.
Proof.
  intros -> HL Hv HL'. replace (2 * v) with (v + v) by lra.
  rewrite exp_plus. nra.
Qed.

Lemma exp_double_upper (v w U U' : R) :
  w = 2 * v -> exp v <= U -> U * U <= U' -> exp w <= U'.
Proof.
  intros -> Hv HU'. replace (2 * v) with (v + v) by lra.
  rewrite exp_plus. pose proof (exp_pos v). nra.
Qed.

Lemma exp_le (x y : R) : x <= y -> exp x <= exp y.
Proof.
  intros [Hlt | ->]; [left; now apply exp_increasing | right; reflexivity].
Qed.

Lemma ln_upper (z : R) : 0 < z -> ln z <= z - 1.
Proof.
  intros Hz. pose proof (exp_ineq1_le (ln z)) as H.
  rewrite exp_ln in H by exact Hz. lra.
Qed.

Lemma ln_lower (z : R) : 0 < z -> 1 - / z <= ln z.
Proof.
  intros Hz. assert (Hinv : 0 < / z) by now apply Rinv_0_lt_compat.
  pose proof (ln_upper (/ z) Hinv) as H. rewrite ln_Rinv in H by exact Hz. lra.
Qed.

Lemma exp_lower_at_m493 : 0.0058 <= exp (-4.93).
Proof.
  assert (H0 : 0.9229 <= exp (-4.93 / 64))
    by (pose proof (exp_ineq1_le (-4.93 / 64)); lra).
  assert (H1 : 0.8517 <= exp (-4.93 / 32))
    by (apply (exp_double_lower (-4.93 / 64) _ 0.9229); lra).
  assert (H2 : 0.7253 <= exp (-4.93 / 16))
    by (apply (exp_double_lower (-4.93 / 32) _ 0.8517); lra).
  assert (H3 : 0.526 <= exp (-4.93 / 8))
    by (apply (exp_double_lower (-4.93 / 16) _ 0.7253); lra).
  assert (H4 : 0.2766 <= exp (-4.93 / 4))
    by (apply (exp_double_lower (-4.93 / 8) _ 0.526); lra).
  assert (H5 : 0.0765 <= exp (-4.93 / 2))
    by (apply (exp_double_lower (-4.93 / 4) _ 0.2766); lra).
  apply (exp_double_lower (-4.93 / 2) _ 0.0765); lra.
Qed.

Lemma exp_upper_at_m4905 : exp (-4.905) <= 0.0105.
Proof.
  assert (H0 : exp (-4.905 / 32) <= 0.8671).
  { pose proof (exp_upper1 (-4.905 / 32)) as H.
    assert (Hinv : / (1 - -4.905 / 32) <= 0.8671).
    { apply Rmult_le_reg_l with (1 - -4.905 / 32); [lra |].
      rewrite Rinv_r by lra. lra. }
    lra. }
  assert (H1 : exp (-4.905 / 16) <= 0.7519)
    by (apply (exp_double_upper (-4.905 / 32) _ 0.8671); lra).
  assert (H2 : exp (-4.905 / 8) <= 0.5654)
    by (apply (exp_double_upper (-4.905 / 16) _ 0.7519); lra).
  assert (H3 : exp (-4.905 / 4) <= 0.3197)
    by (apply (exp_double_upper (-4.905 / 8) _ 0.5654); lra).
  assert (H4 : exp (-4.905 / 2) <= 0.1023)
    by (apply (exp_double_upper (-4.905 / 4) _ 0.3197); lra).
  apply (exp_double_upper (-4.905 / 2) _ 0.1023); lra.
Qed.

(** [0.900 ** t] between its tangent at 0 and a hyperbola. *)
Lemma survival_bounds (t : R) :
  0 < t -> 1 - t / 9 <= Rpower 0.900 t <= / (1 + t / 10).
Proof.
  intros Ht. unfold Rpower.
  assert (Hup : ln 0.900 <= - (1 / 10)) by (pose proof (ln_upper 0.900); lra).
  assert (Hlo : - (1 / 9) <= ln 0.900).
  { pose proof (ln_lower 0.900) as H.
    replace (/ 0.900) with (10 / 9) in H by lra. lra. }
  split.
  - pose proof (exp_ineq1_le (t * ln 0.900)). nra.
  - apply Rle_trans with (/ (1 - t * ln 0.900)).
    + apply exp_upper1. nra.
    + apply Rinv_le_contravar; nra.
Qed.

End ExpBounds.

(** ** The lowest-risk profile *)

Section LowestRisk.

(** The linear predictor of the profile: age 30, female, SBP 80, total
    cholesterol 2.0, HDL 3.0, non-smoker, no diabetes, eGFR 120, hs-CRP 0.1,
    no vascular bed. *)
Lemma lowest_lp :
  spec_lp 30 (indicator (String.eqb "Female" "Male")) 80 2.0 3.0
    (indicator false) (indicator false) 120 0.1 0
  = 0.87 + 0.25 * ln 1.1.
Proof.
  unfold spec_lp. rewrite spec_ln_term_ln. simpl indicator.
  replace (0.1 + 1) with 1.1 by lra. lra.
Qed.

Lemma ln_11_bounds : 0 <= ln 1.1 <= 0.1.
Proof.
  pose proof (ln_upper 1.1). pose proof (ln_lower 1.1) as Hlow.
  assert (Hinv : / 1.1 <= 1).
  { rewrite <- Rinv_1. apply Rinv_le_contravar; lra. }
  lra.
Qed.

Lemma lowest_hazard :
  0.0058 <= exp (0.87 + 0.25 * ln 1.1 - 5.8) <= 0.0105.
Proof.
  pose proof ln_11_bounds as Hln. split.
  - apply Rle_trans with (exp (-4.93)); [exact exp_lower_at_m493 |].
    apply exp_le. lra.
  - apply Rle_trans with (exp (-4.905)); [| exact exp_upper_at_m4905].
    apply exp_le. lra.
Qed.

Lemma lowest_risk10 : spec_risk10 (0.87 + 0.25 * ln 1.1) = 0.1.
Proof.
  unfold spec_risk10.
  destruct lowest_hazard as [Hlo Hhi].
  set (t := exp (0.87 + 0.25 * ln 1.1 - 5.8)) in *.
  destruct (survival_bounds t) as [Hs_lo Hs_hi]; [lra |].
  assert (Hinv : / (1 + t / 10) < 0.9995).
  { apply Rmult_lt_reg_l with (1 + t / 10); [lra |].
    rewrite Rinv_r by lra. lra. }
  replace 0.1 with (IZR 1 / 10) by lra. apply round1_eq. lra.
Qed.

Lemma risk5_of_lowest : spec_risk5 0.1 = 0.1.
Proof.
  unfold spec_risk5.
  destruct (sqrt_unit (1 - 0.1 / 100)) as [Hq Hqq]; [lra |].
  set (q := sqrt (1 - 0.1 / 100)) in *.
  transitivity (IZR 1 / 10); [| lra]. apply round1_eq.
  assert (Hq_hi : q < 0.9995) by nra.
  assert (Hq_lo : 0.9985 < q) by nra.
  lra.
Qed.

(** At the other end a 10-year risk of 100 has a 5-year risk of 100. *)
Lemma risk5_of_highest : estimate_5yr_from_10yr 100 = Return 100.
Proof.
  rewrite estimate_5yr_value by lra. apply (f_equal (@Return R)).
  unfold spec_risk5. replace (1 - 100 / 100) with 0 by lra.
  rewrite sqrt_0. transitivity (IZR 1000 / 10); [| lra].
  apply round1_eq. lra.
Qed.

End LowestRisk.

(** C4, as stated, fails: both risks are rounded to one decimal place, and
    a 10-year risk of 0.1 has a 5-year risk of 0.05001..., which rounds to
    0.1 as well.  The profile below is inside every widget range and has a
    10-year risk of 0.1. *)
Lemma risk5_not_below_risk10_at_lowest_risk :
  valid_profile 30 "Female" 80 2.0 3.0 120 0.1 0
  /\ estimate_smart_risk 30 "Female" 80 2.0 3.0 false false 120 0.1 0
     = Return 0.1
  /\ estimate_5yr_from_10yr 0.1 = Return 0.1
  /\ 0.1 > 0
  /\ ~ 0.1 < 0.1.
Proof.
  split.
  { unfold valid_profile. repeat split; try lia; try lra. now right. }
  split.
  { rewrite estimate_smart_risk_value by lra.
    apply (f_equal (@Return R)).
    change (IZR 30) with 30. change (IZR 80) with 80.
    change (IZR 120) with 120. change (IZR 0) with 0.
    rewrite lowest_lp. exact lowest_risk10. }
  split.
  { rewrite estimate_5yr_value by lra.
    apply (f_equal (@Return R)). exact risk5_of_lowest. }
  split; lra.
Qed.

(** C4 (amended).  For every profile with [crp >= 0] both estimators return,
    [0 <= risk5 <= risk10 <= 100], and [risk5 < risk10] strictly whenever
    [0.1 < risk10 < 100], both values being the rounded ones. *)
Theorem risk5_at_most_risk10 (age : Z) (sex : string) (sbp : Z)
    (total_chol hdl : R) (smoker diabetes : bool) (egfr : Z) (crp : R)
    (vasc_count : Z) :
  0 <= crp ->
  exists risk10 risk5 : R,
    estimate_smart_risk age sex sbp total_chol hdl smoker diabetes egfr crp
      vasc_count = Return risk10
    /\ estimate_5yr_from_10yr risk10 = Return risk5
    /\ 0 <= risk5 <= risk10
    /\ risk10 <= 100
    /\ (0.1 < risk10 < 100 -> risk5 < risk10).
Proof.
  intros Hcrp.
  set (lp := spec_lp (IZR age) (indicator (String.eqb sex "Male")) (IZR sbp)
               total_chol hdl (indicator smoker) (indicator diabetes)
               (IZR egfr) crp (IZR vasc_count)).
  destruct (spec_risk10_range lp) as [Hrange Hdec].
  exists (spec_risk10 lp), (spec_risk5 (spec_risk10 lp)).
  split; [apply estimate_smart_risk_value; lra |].
  split; [apply estimate_5yr_value; lra |].
  split; [now apply spec_risk5_le |].
  split; [lra |].
  intros Hstrict. now apply spec_risk5_lt.
Qed.

Lemma risk5_at_most_risk10_witness :
  exists risk10 risk5 : R,
    estimate_smart_risk 60 "Male" 145 5.0 1.0 false false 80 2.0 0
    = Return risk10
    /\ estimate_5yr_from_10yr risk10 = Return risk5
    /\ risk5 <= risk10.
Proof.
  destruct (risk5_at_most_risk10 60 "Male" 145 5.0 1.0 false false 80 2.0 0)
    as (risk10 & risk5 & H10 & H5 & Hle & _); [lra |].
  exists risk10, risk5. split; [exact H10 |]. split; [exact H5 | lra].
Defined.

(** * Further properties of the estimators *)

Section EstimatorFacts.




Lemma spec_risk5_mono (a b : R) : a <= b -> spec_risk5 a <= spec_risk5 b.
Proof.
  intros Hab. unfold spec_risk5. apply round1_mono.
  assert (H : sqrt (1 - b / 100) <= sqrt (1 - a / 100))
    by (apply sqrt_le_1_alt; lra).
  lra.
Qed.

Lemma spec_risk5_0 : spec_risk5 0 = 0.
Proof.
  unfold spec_risk5. replace (1 - 0 / 100) with 1 by lra.
  rewrite sqrt_1. replace ((1 - 1) * 100) with 0 by lra. apply round1_0.
Qed.

Lemma spec_risk5_100 : spec_risk5 100 = 100.
Proof.
  unfold spec_risk5. replace (1 - 100 / 100) with 0 by lra.
  rewrite sqrt_0. transitivity (IZR 1000 / 10); [| lra].
  apply round1_eq. lra.
Qed.

Lemma spec_risk5_range (r : R) :
  0 <= r <= 100 -> 0 <= spec_risk5 r <= 100 /\ one_decimal (spec_risk5 r).
Proof.
  intros Hr. split; [| apply round1_one_decimal]. split.
  - rewrite <- spec_risk5_0. apply spec_risk5_mono. lra.
  - apply Rle_trans with (spec_risk5 100).
    + apply spec_risk5_mono. lra.
    + rewrite spec_risk5_100. lra.
Qed.

End EstimatorFacts.



(** X4.  On 10-year risks up to 100 [estimate_5yr_from_10yr] is
    non-decreasing, maps 0 to 0 and 100 to 100, and so keeps every risk of
    the range 0..100 in that range, with one decimal place. *)
Theorem estimate_5yr_monotone (a b : R) :
  a <= b -> b <= 100 ->
  exists ra rb : R,
    estimate_5yr_from_10yr a = Return ra
    /\ estimate_5yr_from_10yr b = Return rb
    /\ ra <= rb
    /\ (a = 0 -> ra = 0)
    /\ (b = 100 -> rb = 100)
    /\ (0 <= a -> 0 <= ra /\ rb <= 100 /\ one_decimal ra /\ one_decimal rb).
Proof.
  intros Hab Hb. exists (spec_risk5 a), (spec_risk5 b).
  split; [apply estimate_5yr_value; lra |].
  split; [apply estimate_5yr_value; lra |].
  split; [now apply spec_risk5_mono |].
  split; [intros ->; apply spec_risk5_0 |].
  split; [intros ->; apply spec_risk5_100 |].
  intros Ha.
  destruct (spec_risk5_range a) as [[Hlo _] Hda]; [lra |].
  destruct (spec_risk5_range b) as [[_ Hhi] Hdb]; [lra |].
  repeat split; assumption.
Qed.

Lemma estimate_5yr_monotone_witness :
  exists ra rb : R,
    estimate_5yr_from_10yr 0 = Return ra
    /\ estimate_5yr_from_10yr 100 = Return rb
    /\ ra = 0 /\ rb = 100.
Proof.
  destruct (estimate_5yr_monotone 0 100) as (ra & rb & Ha & Hb & _ & H0 & H100 & _);
    [lra | lra |].
  exists ra, rb. split; [exact Ha |]. split; [exact Hb |].
  split; [now apply H0 | now apply H100].
Defined.

(** * Further properties of the composition *)

Section CompositionFacts.

Lemma interventions_arr_range :
  Forall (fun iv => (0 <= arr_5yr iv <= 100)%Z
                    /\ (0 <= arr_lifetime iv <= 100)%Z) interventions.
Proof. unfold interventions. repeat constructor; simpl; lia. Qed.

Lemma iv_factor_range (h : string) (iv : Intervention) :
  (0 <= arr_5yr iv <= 100)%Z /\ (0 <= arr_lifetime iv <= 100)%Z ->
  0 <= 1 - IZR (iv_arr h iv) / 100 <= 1.
Proof.
  intros [[H5lo H5hi] [HLlo HLhi]].
  apply IZR_le in H5lo, H5hi, HLlo, HLhi.
  unfold iv_arr. destruct (String.eqb h "5yr"); lra.
Qed.

(** A larger selection and a smaller starting value give a smaller result,
    and the result stays non-negative. *)
Lemma apply_interventions_mono (h : string) (sel sel' : list string)
    (catalog : list Intervention) (r r' : R) :
  Forall (fun iv => (0 <= arr_5yr iv <= 100)%Z
                    /\ (0 <= arr_lifetime iv <= 100)%Z) catalog ->
  (forall n, py_in n sel = true -> py_in n sel' = true) ->
  0 <= r' <= r ->
  0 <= apply_interventions h sel' catalog r'
    <= apply_interventions h sel catalog r.
Proof.
  intros Hcat Hsub. revert r r'.
  induction Hcat as [| iv catalog Hiv Hcat IH]; intros r r' Hr; simpl.
  - exact Hr.
  - pose proof (iv_factor_range h iv Hiv) as Hf.
    apply IH.
    destruct (py_in (name iv) sel) eqn:Hin.
    + rewrite (Hsub _ Hin). nra.
    + destruct (py_in (name iv) sel'); nra.
Qed.

Lemma apply_interventions_range (h : string) (sel : list string) (r : R) :
  0 <= r -> 0 <= apply_interventions h sel interventions r <= r.
Proof.
  intros Hr.
  rewrite <- (apply_interventions_nil h interventions r) at 3.
  apply apply_interventions_mono;
    [exact interventions_arr_range | intros n H; discriminate H | lra].
Qed.

Lemma ldl_rrr_le_35 (bl fl : R) : ldl_rrr bl fl <= 35.
Proof. unfold ldl_rrr. apply Rmin_r. Qed.

Lemma ldl_rrr_nonneg (bl fl : R) : fl <= bl -> 0 <= ldl_rrr bl fl.
Proof.
  intros H. unfold ldl_rrr, ldl_drop. apply Rmin_glb; lra.
Qed.

Lemma bp_rrr_le_20 (sc st : Z) : bp_rrr sc st <= 20.
Proof. unfold bp_rrr. apply Rmin_r. Qed.

Lemma bp_rrr_nonneg (sc st : Z) : (st <= sc)%Z -> 0 <= bp_rrr sc st.
Proof.
  intros H. unfold bp_rrr. rewrite minus_IZR. apply IZR_le in H.
  apply Rmin_glb; lra.
Qed.

Lemma membership_py_in (sel sel' : list string) (n : string) :
  (In n sel <-> In n sel') -> py_in n sel = py_in n sel'.
Proof.
  intros Hiff.
  destruct (py_in n sel) eqn:H1, (py_in n sel') eqn:H2; try reflexivity.
  - apply py_in_In in H1. apply Hiff in H1. apply py_in_In in H1. congruence.
  - apply py_in_In in H2. apply Hiff in H2. apply py_in_In in H2. congruence.
Qed.

End CompositionFacts.

(** X5.  The composition depends on the selection only through which
    catalog names it contains: the order of the selected names, repeated
    names and names outside the catalog make no difference to any field of
    the result. *)
Theorem compose_selection_as_set (b : R) (h : string)
    (sel sel' : list string) (bl fl : R) (sc st : Z) :
  (forall iv, In iv interventions ->
              (In (name iv) sel <-> In (name iv) sel')) ->
  compose b h sel bl fl sc st = compose b h sel' bl fl sc st.
Proof.
  intros Hsame. unfold compose, remaining.
  rewrite (apply_interventions_ext h sel sel' interventions (b / 100));
    [reflexivity |].
  intros iv Hiv. apply membership_py_in. now apply Hsame.
Qed.

Lemma compose_selection_as_set_witness :
  compose 20 "10yr" ["Physical activity"; "Smoking cessation"] 3.5 2.0 145 120
  = compose 20 "10yr"
      ["Smoking cessation"; "Physical activity"; "Smoking cessation"]
      3.5 2.0 145 120.
Proof.
  apply (compose_selection_as_set 20 "10yr"
           ["Physical activity"; "Smoking cessation"]
           ["Smoking cessation"; "Physical activity"; "Smoking cessation"]).
  intros iv _. simpl. tauto.
Defined.

(** X6.  Selecting more interventions never raises the result: for a
    non-negative baseline risk and whatever the LDL and BP plans, a
    selection that contains another one gives a final risk that is not
    higher and an ARR that is not lower, and the final risk is never
    negative. *)
Theorem compose_more_interventions (b : R) (h : string)
    (sel sel' : list string) (bl fl : R) (sc st : Z) :
  0 <= b ->
  incl sel sel' ->
  0 <= final_risk (compose b h sel' bl fl sc st)
    <= final_risk (compose b h sel bl fl sc st)
  /\ arr (compose b h sel bl fl sc st) <= arr (compose b h sel' bl fl sc st).
Proof.
  intros Hb Hincl.
  assert (Hrem : 0 <= remaining b h sel' bl fl sc st * 100
                   <= remaining b h sel bl fl sc st * 100).
  { rewrite !remaining_unfold.
    pose proof (ldl_rrr_le_35 bl fl). pose proof (bp_rrr_le_20 sc st).
    assert (Happ : 0 <= apply_interventions h sel' interventions (b / 100)
                     <= apply_interventions h sel interventions (b / 100)).
    { apply apply_interventions_mono;
        [exact interventions_arr_range | | lra].
      intros n Hn. apply py_in_In. apply Hincl. now apply py_in_In. }
    set (a' := apply_interventions h sel' interventions (b / 100)) in *.
    set (a := apply_interventions h sel interventions (b / 100)) in *.
    set (f := (1 - ldl_rrr bl fl / 100) * (1 - bp_rrr sc st / 100)).
    assert (Hf : 0 <= f) by (unfold f; nra).
    replace (a' * (1 - ldl_rrr bl fl / 100) * (1 - bp_rrr sc st / 100) * 100)
      with (a' * f * 100) by (unfold f; ring).
    replace (a * (1 - ldl_rrr bl fl / 100) * (1 - bp_rrr sc st / 100) * 100)
      with (a * f * 100) by (unfold f; ring).
    split; nra. }
  unfold compose; cbn [final_risk arr].
  assert (Hfin : 0 <= round1 (remaining b h sel' bl fl sc st * 100)
                   <= round1 (remaining b h sel bl fl sc st * 100)).
  { split; [rewrite <- round1_0 |]; apply round1_mono; lra. }
  split; [exact Hfin |]. apply round1_mono. lra.
Qed.

Lemma compose_more_interventions_witness :
  final_risk (compose 20 "10yr" ["Physical activity"; "Smoking cessation"]
                3.5 2.0 145 120)
  <= final_risk (compose 20 "10yr" ["Physical activity"] 3.5 2.0 145 120).
Proof.
  apply (compose_more_interventions 20 "10yr" ["Physical activity"]
           ["Physical activity"; "Smoking cessation"] 3.5 2.0 145 120).
  - lra.
  - intros n [<- | []]. now left.
Defined.

(** X7.  When the baseline risk is a non-negative one-decimal value, the
    final LDL-C is not above the baseline LDL-C and the target SBP is not
    above the current SBP, the composition stays inside the baseline:
    [0 <= final_risk <= baseline_risk], [0 <= arr <= baseline_risk] and
    [0 <= rrr <= 100]. *)
Theorem compose_within_baseline (b : R) (h : string) (sel : list string)
    (bl fl : R) (sc st : Z) :
  0 <= b -> one_decimal b -> fl <= bl -> (st <= sc)%Z ->
  let res := compose b h sel bl fl sc st in
  0 <= final_risk res <= b
  /\ 0 <= arr res <= b
  /\ 0 <= rrr res <= 100.
Proof.
  intros Hb [k Hk] Hldl Hbp. cbn zeta.
  assert (Hfix : round1 b = b) by (rewrite Hk; apply round1_fixes).
  assert (Hrem : 0 <= remaining b h sel bl fl sc st * 100 <= b).
  { rewrite remaining_unfold.
    pose proof (ldl_rrr_le_35 bl fl). pose proof (ldl_rrr_nonneg bl fl Hldl).
    pose proof (bp_rrr_le_20 sc st). pose proof (bp_rrr_nonneg sc st Hbp).
    assert (Happ : 0 <= apply_interventions h sel interventions (b / 100)
                     <= b / 100) by (apply apply_interventions_range; lra).
    set (a := apply_interventions h sel interventions (b / 100)) in *.
    set (f := (1 - ldl_rrr bl fl / 100) * (1 - bp_rrr sc st / 100)).
    assert (Hf : 0 <= f <= 1) by (unfold f; split; nra).
    replace (a * (1 - ldl_rrr bl fl / 100) * (1 - bp_rrr sc st / 100) * 100)
      with (a * f * 100) by (unfold f; ring).
    split; nra. }
  unfold compose; cbn [final_risk arr rrr].
  set (fr := round1 (remaining b h sel bl fl sc st * 100)).
  assert (Hfr : 0 <= fr <= b).
  { unfold fr. split.
    - rewrite <- round1_0. apply round1_mono. lra.
    - apply Rle_trans with (round1 b); [apply round1_mono; lra | lra]. }
  set (ar := round1 (b - fr)).
  assert (Har : 0 <= ar <= b).
  { unfold ar. split.
    - rewrite <- round1_0. apply round1_mono. lra.
    - apply Rle_trans with (round1 b); [apply round1_mono; lra | lra]. }
  split; [exact Hfr |]. split; [exact Har |].
  destruct (Req_dec_T b 0) as [Hz | Hnz]; [lra |].
  assert (Hpos : 0 < b) by lra.
  assert (Hq : 0 <= ar / b * 100 <= 100).
  { assert (Hdiv : 0 <= ar / b <= 1).
    { split.
      - apply Rmult_le_pos; [lra | left; now apply Rinv_0_lt_compat].
      - apply Rmult_le_reg_r with b; [exact Hpos |].
        unfold Rdiv. rewrite Rmult_assoc, Rinv_l by exact Hnz. lra. }
    lra. }
  split.
  - rewrite <- round1_0. apply round1_mono. lra.
  - apply Rle_trans with (round1 (IZR 1000 / 10)).
    + apply round1_mono. lra.
    + rewrite round1_fixes. lra.
Qed.

Lemma compose_within_baseline_witness :
  0 <= final_risk (compose 20 "10yr" ["Physical activity"] 3.5 2.0 145 120)
    <= 20.
Proof.
  apply (compose_within_baseline 20 "10yr" ["Physical activity"] 3.5 2.0
           145 120).
  - lra.
  - exists 200%Z. lra.
  - lra.
  - lia.
Defined.



(** * Further properties of the therapy stack and the warnings *)

Section TherapyFacts.

Lemma ldl_therapies_potency_range :
  Forall (fun e => (0 <= snd e <= 100)%Z) ldl_therapies.
Proof. unfold ldl_therapies. repeat constructor; simpl; lia. Qed.

Lemma potencies_of_filter (q : string * Z -> bool) :
  Forall (fun p => (0 <= p <= 100)%Z) (map snd (filter q ldl_therapies)).
Proof.
  apply Forall_forall. intros p Hp.
  apply in_map_iff in Hp as (e & <- & He). apply filter_In in He as [He _].
  exact (proj1 (Forall_forall _ _) ldl_therapies_potency_range e He).
Qed.

(** Multiplying by factors between 0 and 1 moves a value towards 0. *)
Lemma fold_factors_towards_0 (g : Z -> R) (ps : list Z) (l : R) :
  Forall (fun p => 0 <= g p <= 1) ps ->
  (0 <= l -> 0 <= fold_left (fun l p => l * g p) ps l <= l)
  /\ (l <= 0 -> l <= fold_left (fun l p => l * g p) ps l <= 0).
Proof.
  intros Hps. revert l.
  induction Hps as [| p ps Hp Hps IH]; intros l; simpl.
  - split; intros; lra.
  - destruct (IH (l * g p)) as [IHpos IHneg]. split; intros Hl.
    + assert (H : 0 <= l * g p <= l) by nra. specialize (IHpos (proj1 H)). lra.
    + assert (H : l <= l * g p <= 0) by nra. specialize (IHneg (proj2 H)). lra.
Qed.

Lemma full_potency_factors (ps : list Z) :
  Forall (fun p => (0 <= p <= 100)%Z) ps ->
  Forall (fun p => 0 <= 1 - IZR p / 100 <= 1) ps.
Proof.
  intros H. eapply Forall_impl; [| exact H].
  intros p [Hlo Hhi]. apply IZR_le in Hlo, Hhi. simpl in *. lra.
Qed.

Lemma half_potency_factors (ps : list Z) :
  Forall (fun p => (0 <= p <= 100)%Z) ps ->
  Forall (fun p => 0 <= 1 - IZR p / 100 * 0.5 <= 1) ps.
Proof.
  intros H. eapply Forall_impl; [| exact H].
  intros p [Hlo Hhi]. apply IZR_le in Hlo, Hhi. simpl in *. lra.
Qed.

Lemma spec_final_ldl_range (b : R) (active new : list Z) :
  Forall (fun p => (0 <= p <= 100)%Z) active ->
  Forall (fun p => (0 <= p <= 100)%Z) new ->
  1 <= spec_final_ldl b active new <= Rmax b 1.
Proof.
  intros Ha Hn. unfold spec_final_ldl. replace 1.0 with 1 by lra.
  split; [apply Rmax_r |].
  set (l1 := fold_left (fun ldl p => ldl * (1 - IZR p / 100)) active b).
  assert (H1 : Rmax l1 1 <= Rmax b 1).
  { destruct (fold_factors_towards_0 (fun p => 1 - IZR p / 100) active b
                (full_potency_factors active Ha)) as [Hpos Hneg].
    fold l1 in Hpos, Hneg.
    pose proof (Rmax_l b 1). pose proof (Rmax_r b 1).
    apply Rmax_lub; [| lra].
    destruct (Rle_or_lt 0 b) as [Hb | Hb].
    - specialize (Hpos Hb). lra.
    - assert (Hb' : b <= 0) by lra. specialize (Hneg Hb'). lra. }
  assert (H0 : 0 <= Rmax l1 1) by (pose proof (Rmax_r l1 1); lra).
  destruct (fold_factors_towards_0 (fun p => 1 - IZR p / 100 * 0.5) new
              (Rmax l1 1) (half_potency_factors new Hn)) as [Hpos _].
  specialize (Hpos H0).
  pose proof (Rmax_r b 1).
  apply Rmax_lub; lra.
Qed.

Lemma therapy_stack_range (baseline_ldl : R) (checked : string -> bool) :
  exists ldl : R,
    therapy_stack baseline_ldl checked = Return ldl
    /\ 1 <= ldl <= Rmax baseline_ldl 1.
Proof.
  eexists. split; [apply therapy_stack_spec |].
  apply spec_final_ldl_range; apply potencies_of_filter.
Qed.

End TherapyFacts.

(** X9.  Whatever is checked, the therapy stack never raises LDL-C above
    [max(baseline_ldl, 1.0)]; so from a baseline of at least 1.0 mmol/L the
    derived [final_ldl] lies between 1.0 and the baseline, the LDL drop is
    not negative and [ldl_rrr] lies between 0 and 35. *)
Theorem therapy_stack_never_raises_ldl (baseline_ldl : R)
    (checked : string -> bool) :
  exists ldl : R,
    therapy_stack baseline_ldl checked = Return ldl
    /\ ldl <= Rmax baseline_ldl 1.0
    /\ (1.0 <= baseline_ldl ->
        1.0 <= ldl <= baseline_ldl
        /\ 0 <= ldl_drop baseline_ldl ldl
        /\ 0 <= ldl_rrr baseline_ldl ldl <= 35).
Proof.
  destruct (therapy_stack_range baseline_ldl checked) as (ldl & Hret & Hlo & Hhi).
  exists ldl. split; [exact Hret |].
  replace 1.0 with 1 by lra. split; [exact Hhi |].
  intros Hb. rewrite Rmax_left in Hhi by lra.
  split; [lra |]. split; [unfold ldl_drop; lra |].
  split; [apply ldl_rrr_nonneg; lra | apply ldl_rrr_le_35].
Qed.

Lemma therapy_stack_never_raises_ldl_witness :
  exists ldl : R,
    therapy_stack 3.5 (fun label => String.eqb label "Ezetimibe") = Return ldl
    /\ 1.0 <= ldl <= 3.5.
Proof.
  destruct (therapy_stack_never_raises_ldl 3.5
              (fun label => String.eqb label "Ezetimibe"))
    as (ldl & Hret & _ & Hin).
  exists ldl. split; [exact Hret |]. apply Hin. lra.
Defined.

(** X10.  In the clinician view the warning "Final LDL-C <1.0 mmol/L is
    theoretical minimum; benefit capped." is never shown: the [final_ldl]
    that the therapy section derives is never below 1.0, whatever the
    baseline and whatever is checked. *)
Theorem ldl_floor_warning_never_shown (baseline_ldl : R)
    (checked : string -> bool) :
  exists ldl : R,
    therapy_stack baseline_ldl checked = Return ldl
    /\ ldl_floor_warning ldl = false.
Proof.
  destruct (therapy_stack_range baseline_ldl checked) as (ldl & Hret & Hlo & _).
  exists ldl. split; [exact Hret |].
  unfold ldl_floor_warning. destruct (Rlt_dec ldl 1.0); [lra | reflexivity].
Qed.

(** X11.  The SBP warning is shown exactly when the BP step gives no
    reduction ([bp_rrr <= 0]).  When it is not shown the target is at least
    1 mmHg below the current SBP, [bp_rrr] lies between 1.5 and 20, and the
    BP step strictly lowers a positive remaining risk. *)
Theorem sbp_warning_iff_no_benefit (sbp_current sbp_target : Z) :
  (sbp_warning sbp_current sbp_target = true
   <-> bp_rrr sbp_current sbp_target <= 0)
  /\ (sbp_warning sbp_current sbp_target = false ->
      1.5 <= bp_rrr sbp_current sbp_target <= 20
      /\ forall r, 0 < r -> r * (1 - bp_rrr sbp_current sbp_target / 100) < r).
Proof.
  unfold sbp_warning.
  assert (Hgap : IZR (sbp_current - sbp_target)
                 = IZR sbp_current - IZR sbp_target) by apply minus_IZR.
  split; [split |].
  - intros Hw. apply Z.geb_le in Hw. apply IZR_le in Hw.
    unfold bp_rrr. apply Rle_trans with (15 * (IZR (sbp_current - sbp_target) / 10));
      [apply Rmin_l | lra].
  - intros Hrrr. apply Z.geb_le.
    destruct (Z_le_gt_dec sbp_current sbp_target) as [Hle | Hgt]; [exact Hle |].
    exfalso. assert (H1 : (1 <= sbp_current - sbp_target)%Z) by lia.
    apply IZR_le in H1. unfold bp_rrr in Hrrr.
    assert (Hpos : 0 < Rmin (15 * (IZR (sbp_current - sbp_target) / 10)) 20)
      by (apply Rmin_glb_lt; lra).
    lra.
  - intros Hw.
    assert (H1 : (1 <= sbp_current - sbp_target)%Z).
    { destruct (Z_le_gt_dec sbp_current sbp_target) as [Hle | Hgt]; [| lia].
      apply Z.geb_le in Hle. congruence. }
    apply IZR_le in H1.
    assert (Hlo : 1.5 <= bp_rrr sbp_current sbp_target)
      by (unfold bp_rrr; apply Rmin_glb; lra).
    pose proof (bp_rrr_le_20 sbp_current sbp_target) as Hhi.
    split; [lra |]. intros r Hr. nra.
Qed.

Lemma sbp_warning_iff_no_benefit_witness :
  bp_rrr 120 120 <= 0 /\ 1.5 <= bp_rrr 121 120 <= 20.
Proof.
  split.
  - apply (sbp_warning_iff_no_benefit 120 120). reflexivity.
  - apply (sbp_warning_iff_no_benefit 121 120). reflexivity.
Defined.

(** * The whole calculation *)

Section WholeCalculation.

Lemma iv_arr_other_horizon (h : string) (iv : Intervention) :
  h <> "5yr" -> iv_arr h iv = arr_lifetime iv.
Proof.
  intros Hh. unfold iv_arr. apply String.eqb_neq in Hh. now rewrite Hh.
Qed.

Lemma apply_interventions_horizon (h h' : string) (sel : list string)
    (catalog : list Intervention) (r : R) :
  (forall iv, iv_arr h iv = iv_arr h' iv) ->
  apply_interventions h sel catalog r = apply_interventions h' sel catalog r.
Proof.
  intros Hsame. revert r.
  induction catalog as [| iv catalog IH]; intros r; simpl; [reflexivity |].
  rewrite (Hsame iv). apply IH.
Qed.

Lemma compose_horizon (h h' : string) (b : R) (sel : list string)
    (bl fl : R) (sc st : Z) :
  h <> "5yr" -> h' <> "5yr" ->
  compose b h sel bl fl sc st = compose b h' sel bl fl sc st.
Proof.
  intros Hh Hh'. unfold compose, remaining.
  rewrite (apply_interventions_horizon h h' sel interventions (b / 100));
    [reflexivity |].
  intros iv. now rewrite !iv_arr_other_horizon.
Qed.

Lemma baseline_risk_of_other_horizon (h : string) (risk10 risk5 : R) :
  h <> "5yr" -> baseline_risk_of h risk10 risk5 = risk10.
Proof.
  intros Hh. unfold baseline_risk_of. apply String.eqb_neq in Hh.
  rewrite Hh. now destruct (String.eqb h "10yr").
Qed.

Lemma run_py_bind {A B : Type} (m : Py A) (k : A -> Py B) :
  run_py (bind m k) = and_then (run_py m) (fun a => run_py (k a)).
Proof. now destruct m. Qed.

Lemma and_then_ext {A B : Type} (m : Script A) (k1 k2 : A -> Script B) :
  (forall a, k1 a = k2 a) -> and_then m k1 = and_then m k2.
Proof. intros Hk. destruct m as [a | e]; simpl; [apply Hk | reflexivity]. Qed.

Lemma and_then_assoc {A B C : Type} (m : Script A) (k : A -> Script B)
    (k' : B -> Script C) :
  and_then (and_then m k) k' = and_then m (fun a => and_then (k a) k').
Proof. now destruct m. Qed.


End WholeCalculation.

(** X12.  The 10-year and the lifetime horizon give the same result: for
    every input, two horizons other than "5yr" lead to the same baseline
    risk (the 10-year risk) and the same ARR column (the lifetime one), so
    the whole calculation returns the same [RiskResult]. *)
Theorem horizons_other_than_5yr_agree (h h' : string) (age : Z)
    (sex : string) (smoker diabetes : bool) (egfr : Z)
    (total_chol hdl crp : R) (vasc_count sbp_current sbp_target : Z)
    (baseline_ldl : R) (checked : string -> bool)
    (selected_iv : list string) :
  h <> "5yr" -> h' <> "5yr" ->
  calculations h age sex smoker diabetes egfr total_chol hdl crp vasc_count
    sbp_current sbp_target baseline_ldl checked selected_iv
  = calculations h' age sex smoker diabetes egfr total_chol hdl crp vasc_count
      sbp_current sbp_target baseline_ldl checked selected_iv.
Proof.
  intros Hh Hh'. unfold calculations.
  apply bind_ext; intros fl. apply bind_ext; intros r10.
  apply bind_ext; intros r5. apply (f_equal (@Return RiskResult)).
  rewrite !baseline_risk_of_other_horizon by assumption.
  now apply compose_horizon.
Qed.

Lemma horizons_other_than_5yr_agree_witness :
  calculations "10yr" 60 "Male" false false 80 5.0 1.0 2.0 0 145 120 3.5
    (fun _ => false) []
  = calculations "lifetime" 60 "Male" false false 80 5.0 1.0 2.0 0 145 120 3.5
      (fun _ => false) [].
Proof.
  apply (horizons_other_than_5yr_agree "10yr" "lifetime");
    intros H; discriminate H.
Defined.

(** * The two views of the script *)

(** X14.  The patient-friendly view never produces a result: its branch
    does not assign [sex], so for every value of its six widgets and every
    horizon the call of [estimate_smart_risk] in the "Calculations" section
    stops the script with a [NameError] for [sex], before any risk is
    computed. *)
Theorem patient_view_stops_with_NameError (horizon : string)
    (age sbp_current sbp_target : Z)
    (total_chol baseline_ldl final_ldl : R) :
  script horizon
    (patient_inputs age sbp_current sbp_target total_chol baseline_ldl
       final_ldl)
  = Crash (NameError "sex").
Proof.
  unfold script, patient_inputs.
  cbn [and_then]. unfold run_calculations.
  cbn [ns_age ns_sex read and_then]. reflexivity.
Qed.

(** X15.  In the clinician view every variable that the "Calculations"
    section reads has been assigned: the script never stops with a
    [NameError], and its outcome is that of [calculations] on the widget
    values, a result or the exception [calculations] raises. *)
Theorem clinician_view_runs_calculations (horizon : string) (age : Z)
    (sex : string) (smoker diabetes : bool) (egfr : Z)
    (total_chol hdl crp : R) (vasc_count sbp_current sbp_target : Z)
    (baseline_ldl : R) (checked : string -> bool)
    (selected_iv : list string) :
  script horizon
    (clinician_inputs age sex smoker diabetes egfr total_chol hdl crp
       vasc_count sbp_current sbp_target baseline_ldl checked selected_iv)
  = run_py (calculations horizon age sex smoker diabetes egfr total_chol hdl
              crp vasc_count sbp_current sbp_target baseline_ldl checked
              selected_iv)
  /\ forall var,
       script horizon
         (clinician_inputs age sex smoker diabetes egfr total_chol hdl crp
            vasc_count sbp_current sbp_target baseline_ldl checked
            selected_iv)
       <> Crash (NameError var).
Proof.
  assert (Heq :
    script horizon
      (clinician_inputs age sex smoker diabetes egfr total_chol hdl crp
         vasc_count sbp_current sbp_target baseline_ldl checked selected_iv)
    = run_py (calculations horizon age sex smoker diabetes egfr total_chol hdl
                crp vasc_count sbp_current sbp_target baseline_ldl checked
                selected_iv)).
  { unfold script, clinician_inputs, calculations, therapy_stack.
    rewrite run_py_bind, run_py_bind, !and_then_assoc.
    apply and_then_ext; intros adjusted.
    rewrite and_then_assoc. apply and_then_ext; intros final.
    cbn [and_then]. unfold run_calculations.
    cbn [read and_then ns_age ns_sex ns_sbp_current ns_total_chol ns_hdl
              ns_smoker ns_diabetes ns_egfr ns_crp ns_vasc_count
              ns_selected_iv ns_baseline_ldl ns_final_ldl ns_sbp_target].
    rewrite run_py_bind. apply and_then_ext; intros risk10.
    rewrite run_py_bind. apply and_then_ext; intros risk5.
    reflexivity. }
  split; [exact Heq |].
  intros var. rewrite Heq.
  destruct (calculations horizon age sex smoker diabetes egfr total_chol hdl
              crp vasc_count sbp_current sbp_target baseline_ldl checked
              selected_iv) as [res | e]; simpl; discriminate.
Qed.

(** * Consistency of the displayed numbers *)

(** X16.  For a baseline risk with one decimal place the three displayed
    risks add up exactly: [arr = baseline_risk - final_risk], the rounding
    of the difference changes nothing, whatever the selection and the
    plans. *)
Theorem arr_is_exact_difference (b : R) (h : string) (sel : list string)
    (bl fl : R) (sc st : Z) :
  one_decimal b ->
  let res := compose b h sel bl fl sc st in
  arr res = b - final_risk res
  /\ final_risk res + arr res = baseline_risk res.
Proof.
  intros [k Hk]. cbn zeta. unfold compose; cbn [arr final_risk baseline_risk].
  set (x := remaining b h sel bl fl sc st * 100).
  assert (Harr : round1 (b - round1 x) = b - round1 x).
  { unfold round1 at 2 3. rewrite Hk.
    replace (IZR k / 10 - IZR (round_half_even (x * 10)) / 10)
      with (IZR (k - round_half_even (x * 10)) / 10)
      by (rewrite minus_IZR; lra).
    apply round1_fixes. }
  split; [exact Harr |]. rewrite Harr. lra.
Qed.

Lemma arr_is_exact_difference_witness :
  arr (compose 20 "10yr" ["Physical activity"] 3.5 2.0 145 120)
  = 20 - final_risk (compose 20 "10yr" ["Physical activity"] 3.5 2.0 145 120).
Proof.
  apply (arr_is_exact_difference 20 "10yr" ["Physical activity"] 3.5 2.0
           145 120).
  exists 200%Z. lra.
Defined.

(** * The composition block in binary64 *)

Section Binary64.

Import PrimFloat.
Local Open Scope float_scope.

Lemma Z_range_In (lo hi z : Z) :
  (lo <= z <= hi)%Z -> In z (Z_range lo hi).
Proof.
  intros Hz. unfold Z_range. apply in_map_iff.
  exists (Z.to_nat (z - lo)). split; [lia |].
  apply in_seq. lia.
Qed.

Lemma forallb_Z_range (lo hi : Z) (f : Z -> bool) :
  forallb f (Z_range lo hi) = true ->
  forall z, (lo <= z <= hi)%Z -> f z = true.
Proof.
  intros Hall z Hz.
  exact (proj1 (forallb_forall f (Z_range lo hi)) Hall z (Z_range_In lo hi z Hz)).
Qed.

(** The loop multiplies by the factors of the selected catalog entries, in
    the order of the catalog. *)
Lemma B64_apply_interventions_fold (h : string) (sel : list string)
    (catalog : list Intervention) (r : float) :
  B64.apply_interventions h sel catalog r
  = fold_left (fun r iv => r * (1 - B64.of_int (iv_arr h iv) / 100))
      (filter (fun iv => py_in (name iv) sel) catalog) r.
Proof.
  revert r. induction catalog as [| iv catalog IH]; intros r; simpl.
  - reflexivity.
  - rewrite IH. now destruct (py_in (name iv) sel).
Qed.

Lemma NoDup_names_filter (q : Intervention -> bool)
    (catalog : list Intervention) :
  NoDup (map name catalog) -> NoDup (map name (filter q catalog)).
Proof.
  induction catalog as [| iv catalog IH]; intros Hnd; simpl.
  - constructor.
  - inversion Hnd as [| ? ? Hfresh Hnd']; subst.
    destruct (q iv); simpl; [| now apply IH].
    constructor; [| now apply IH].
    intros Hin. apply Hfresh.
    apply in_map_iff in Hin as (iv' & Hname & Hiv').
    apply filter_In in Hiv' as [Hiv' _].
    rewrite <- Hname. now apply in_map.
Qed.

(** The entries the loop selects are the selected names, each once. *)
Lemma selected_entries_permutation (sel : list string)
    (catalog : list Intervention) :
  NoDup (map name catalog) -> NoDup sel -> incl sel (map name catalog) ->
  Permutation (map name (filter (fun iv => py_in (name iv) sel) catalog)) sel.
Proof.
  intros Hcat Hsel Hincl. apply NoDup_Permutation.
  - now apply NoDup_names_filter.
  - exact Hsel.
  - intros n. split.
    + intros Hin. apply in_map_iff in Hin as (iv & <- & Hiv).
      apply filter_In in Hiv as [_ Hpy]. now apply py_in_In.
    + intros Hn. pose proof (Hincl n Hn) as Hknown.
      apply in_map_iff in Hknown as (iv & <- & Hiv).
      apply in_map. apply filter_In. split; [exact Hiv | now apply py_in_In].
Qed.

Lemma B64_compose_returns (b : float) (h : string) (sel : list string)
    (bl fl sc st : float) :
  let final := B64.round1 (B64.remaining b h sel bl fl sc st * 100) in
  let arr := B64.round1 (b - final) in
  B64.compose b h sel bl fl sc st
  = Return {| B64.baseline_risk := b; B64.final_risk := final;
              B64.arr := arr;
              B64.rrr := if b =? 0 then 0 else B64.round1 (arr / b * 100) |}.
Proof.
  cbn zeta. unfold B64.compose, B64.rrr_of, B64.truthy, B64.py_div.
  destruct (b =? 0); reflexivity.
Qed.

End Binary64.

Section Binary64Claims.

Import PrimFloat.
Local Open Scope float_scope.

(** At a decimal tie the last place decides.  Baseline 10, nothing
    selected, equal LDL-C, SBP 125 to 120: the remaining risk is 9.25 in
    exact arithmetic and 9.250000000000002 in binary64, so the script shows
    9.3, 0.7 and 7.0. *)
Example B64_compose_at_a_tie :
  B64.compose 10 "10yr" [] 3.5 3.5 125 120
  = Return {| B64.baseline_risk := 10; B64.final_risk := 9.3;
              B64.arr := 0.7; B64.rrr := 7 |}.
Proof. vm_compute. reflexivity. Qed.

Example B64_compose_default_plans :
  B64.compose 20 "10yr" ["Physical activity"; "Smoking cessation"]
    3.5 2.0 145 120
  = Return {| B64.baseline_risk := 20; B64.final_risk := 8.1;
              B64.arr := 11.9; B64.rrr := 59.5 |}.
Proof. vm_compute. reflexivity. Qed.

Example B64_compose_negative_baseline :
  B64.compose (-10) "10yr" [] 3.5 3.5 145 120
  = Return {| B64.baseline_risk := -10; B64.final_risk := -8;
              B64.arr := -2; B64.rrr := 20 |}.
Proof. vm_compute. reflexivity. Qed.

(** C3.  For every baseline risk, horizon and selection drawn from the
    catalog (distinct catalog names), the block returns, and what it
    returns is this, in binary64: [r = baseline_risk / 100] multiplied by
    [1 - arr / 100] once per selected intervention (the entries it
    multiplies by are the selected names, each once, taken in catalog
    order), [arr] being the entry's [arr_5yr] at the 5-year horizon and its
    [arr_lifetime] at every other one (the 10-year horizon included), then
    by the LDL and by the BP factor; [final_risk = round(r * 100, 1)] and
    [arr = round(baseline_risk - final_risk, 1)]. *)
Theorem compose_follows_spec (b : float) (h : string) (sel : list string)
    (bl fl sc st : float) :
  NoDup sel ->
  incl sel (map name interventions) ->
  exists (selected : list Intervention) (res : B64.RiskResult),
    selected = filter (fun iv => py_in (name iv) sel) interventions
    /\ Permutation (map name selected) sel
    /\ B64.compose b h sel bl fl sc st = Return res
    /\ (forall iv, iv_arr "5yr" iv = arr_5yr iv
                   /\ iv_arr "10yr" iv = arr_lifetime iv
                   /\ iv_arr "lifetime" iv = arr_lifetime iv)
    /\ let arr_of iv := if String.eqb h "5yr" then arr_5yr iv
                        else arr_lifetime iv in
       let r := fold_left
                  (fun r iv => r * (1 - B64.of_int (arr_of iv) / 100))
                  selected (b / 100) in
       let r := r * (1 - B64.py_min (22 * (bl - fl)) 35 / 100) in
       let r := r * (1 - B64.py_min (15 * ((sc - st) / 10)) 20 / 100) in
       B64.final_risk res = B64.round1 (r * 100)
       /\ B64.arr res = B64.round1 (b - B64.final_risk res).
Proof.
  intros Hnd Hincl. do 2 eexists.
  split; [reflexivity |].
  split; [apply selected_entries_permutation;
          [exact interventions_names_NoDup | exact Hnd | exact Hincl] |].
  split; [apply B64_compose_returns |].
  split; [intros iv; repeat split |].
  cbn zeta. cbn [B64.final_risk B64.arr].
  unfold B64.remaining. rewrite B64_apply_interventions_fold.
  split; reflexivity.
Qed.

Lemma compose_follows_spec_witness :
  exists res : B64.RiskResult,
    B64.compose 20 "10yr" ["Physical activity"; "Smoking cessation"]
      3.5 2.0 145 120 = Return res
    /\ B64.final_risk res = 8.1
    /\ B64.arr res = 11.9.
Proof.
  destruct (compose_follows_spec 20 "10yr"
              ["Physical activity"; "Smoking cessation"] 3.5 2.0 145 120)
    as (selected & res & Hsel & _ & Hret & _ & Hfinal & Harr).
  - repeat (constructor; [simpl; intuition discriminate |]). constructor.
  - intros x [<- | [<- | []]]; simpl; tauto.
  - exists res. split; [exact Hret |].
    cbn zeta in Hfinal, Harr. rewrite Harr, Hfinal, Hsel.
    split; vm_compute; reflexivity.
Defined.

(** C7, as stated, fails: the cap is not reached at a gap of 13.33.  With a
    current SBP of 133.33 and a target of 120 the gap is at least 13.33 and
    [bp_rrr] is 19.995..., below 20. *)
Lemma bp_cap_not_reached_at_13_33 :
  (13.33 <=? 133.33 - 120) = true
  /\ B64.bp_rrr 133.33 120 = 19.99500000000002
  /\ (B64.bp_rrr 133.33 120 =? 20) = false
  /\ (B64.bp_rrr 133.33 120 <? 20) = true.
Proof. repeat split; vm_compute; reflexivity. Qed.

(** C7 (amended).  The BP step uses
    [bp_rrr = min(15 * ((sbp_current - sbp_target) / 10), 20)] percent and
    multiplies the remaining risk by [1 - bp_rrr / 100]; for the whole-mmHg
    values of the SBP widgets (80 to 220) [bp_rrr == 20] holds exactly when
    [sbp_current - sbp_target >= 14], and the BP factor is then 0.8. *)
Theorem bp_step_min_cap :
  (forall sc st : float,
      B64.bp_rrr sc st = B64.py_min (15 * ((sc - st) / 10)) 20)
  /\ (forall b h sel bl fl sc st,
         B64.remaining b h sel bl fl sc st
         = B64.apply_interventions h sel interventions (b / 100)
           * (1 - B64.ldl_rrr bl fl / 100)
           * (1 - B64.bp_rrr sc st / 100))
  /\ (forall sc st : Z,
         (80 <= sc <= 220)%Z -> (80 <= st <= 220)%Z ->
         ((B64.bp_rrr (B64.of_int sc) (B64.of_int st) =? 20) = true
          <-> (14 <= sc - st)%Z)
         /\ ((14 <= sc - st)%Z ->
             (1 - B64.bp_rrr (B64.of_int sc) (B64.of_int st) / 100 =? 0.8)
             = true)).
Proof.
  split; [reflexivity |]. split; [reflexivity |].
  intros sc st Hsc Hst.
  set (cap_iff := fun sc st : Z =>
         Bool.eqb (B64.bp_rrr (B64.of_int sc) (B64.of_int st) =? 20)
                  (14 <=? sc - st)%Z).
  set (factor_ok := fun sc st : Z =>
         implb (14 <=? sc - st)%Z
           (1 - B64.bp_rrr (B64.of_int sc) (B64.of_int st) / 100 =? 0.8)).
  assert (Hall : forallb (fun sc => forallb (fun st => cap_iff sc st
                                                       && factor_ok sc st)
                                      (Z_range 80 220))
                   (Z_range 80 220) = true)
    by (vm_compute; reflexivity).
  pose proof (forallb_Z_range 80 220 _
                (forallb_Z_range 80 220 _ Hall sc Hsc) st Hst) as Hcell.
  apply andb_true_iff in Hcell as [Hiff Hfac].
  unfold cap_iff in Hiff. apply Bool.eqb_prop in Hiff.
  split.
  - rewrite Hiff. apply Z.leb_le.
  - intros Hgap. unfold factor_ok in Hfac.
    apply Z.leb_le in Hgap. rewrite Hgap in Hfac. exact Hfac.
Qed.

Lemma bp_step_min_cap_witness :
  (B64.bp_rrr (B64.of_int 145) (B64.of_int 120) =? 20) = true
  /\ (B64.bp_rrr (B64.of_int 133) (B64.of_int 120) =? 20) = false.
Proof.
  destruct bp_step_min_cap as (_ & _ & Hcap).
  destruct (Hcap 145%Z 120%Z) as [[_ Hyes] _]; [lia | lia |].
  destruct (Hcap 133%Z 120%Z) as [[Hno _] _]; [lia | lia |].
  split; [apply Hyes; lia |].
  destruct (B64.bp_rrr (B64.of_int 133) (B64.of_int 120) =? 20);
    [specialize (Hno eq_refl); lia | reflexivity].
Defined.

(** C9 (amended).  For every input the block returns, never raising:
    [rrr = 0] when [baseline_risk] is zero, where the quotient without the
    guard would raise [ZeroDivisionError], and
    [rrr = round(arr / baseline_risk * 100, 1)] whenever [baseline_risk] is
    not zero, for negative values as for positive ones. *)
Theorem rrr_zero_guard (b : float) (h : string) (sel : list string)
    (bl fl sc st : float) :
  exists res : B64.RiskResult,
    B64.compose b h sel bl fl sc st = Return res
    /\ B64.rrr_of (B64.arr res) b = Return (B64.rrr res)
    /\ ((b =? 0) = true ->
        B64.rrr res = 0
        /\ B64.rrr_unguarded (B64.arr res) b = Raise ZeroDivisionError)
    /\ ((b =? 0) = false ->
        B64.rrr res = B64.round1 (B64.arr res / b * 100)
        /\ B64.rrr_unguarded (B64.arr res) b = Return (B64.rrr res)).
Proof.
  eexists. split; [apply B64_compose_returns |].
  cbn [B64.arr B64.rrr].
  unfold B64.rrr_of, B64.rrr_unguarded, B64.truthy, B64.py_div.
  destruct (b =? 0); simpl.
  - split; [reflexivity |]. split; [intros _ | intros H; discriminate H].
    split; reflexivity.
  - split; [reflexivity |]. split; [intros H; discriminate H | intros _].
    split; reflexivity.
Qed.

Lemma rrr_zero_guard_witness :
  (exists res : B64.RiskResult,
      B64.compose 0 "10yr" [] 3.5 3.5 145 120 = Return res
      /\ B64.rrr res = 0)
  /\ (exists res : B64.RiskResult,
         B64.compose 20 "10yr" [] 3.5 2.0 145 120 = Return res
         /\ B64.rrr res = B64.round1 (B64.arr res / 20 * 100)).
Proof.
  split.
  - destruct (rrr_zero_guard 0 "10yr" [] 3.5 3.5 145 120)
      as (res & Hret & _ & Hzero & _).
    exists res. split; [exact Hret |]. now apply Hzero.
  - destruct (rrr_zero_guard 20 "10yr" [] 3.5 2.0 145 120)
      as (res & Hret & _ & _ & Hnz).
    exists res. split; [exact Hret |]. now apply Hnz.
Defined.



End Binary64Claims.

(** * The estimators below the overflow threshold

    [math.exp] raises [OverflowError] beyond about 709.78; the statements
    here carry the hypothesis [lp - 5.8 <= 709], which every profile inside
    the widget ranges meets (there [lp < 16]). *)

Section BelowOverflow.




End BelowOverflow.










(** * Decimal ties

    The input of [B64_compose_at_a_tie] in exact arithmetic: 9.25 is a tie
    and goes to the even digit, 9.2, where binary64 gives 9.3. *)

Section Ties.

Lemma round_half_even_tie (k : Z) :
  round_half_even (IZR k + 1 / 2) = if Z.even k then k else (k + 1)%Z.
Proof.
  unfold round_half_even.
  assert (Hf : Int_part (IZR k + 1 / 2) = k).
  { symmetry. apply Int_part_spec. lra. }
  rewrite Hf.
  destruct (Rcompare_spec (IZR k + 1 / 2 - IZR k) (1 / 2)) as [_ | H | H];
    [reflexivity | lra | lra].
Qed.

Example compose_at_a_tie_exact :
  final_risk (compose 10 "10yr" [] 3.5 3.5 125 120) = 9.2.
Proof.
  unfold compose; cbn [final_risk].
  rewrite remaining_unfold, apply_interventions_nil, ldl_rrr_same.
  assert (Hbp : bp_rrr 125 120 = 7.5).
  { unfold bp_rrr. rewrite Rmin_left; simpl; lra. }
  rewrite Hbp. unfold round1.
  replace (10 / 100 * (1 - 0 / 100) * (1 - 7.5 / 100) * 100 * 10)
    with (IZR 92 + 1 / 2) by lra.
  rewrite round_half_even_tie. simpl. lra.
Qed.

End Ties.
